(** * The ADB session object ([Adb]) of ya-webadb: handshake and banner parsing

    A shallow embedding of the class [Adb] of
    [packages/demo/src/router.tsx] (second document of the file): its
    fields and accessors, [connect], the packet listener that [connect]
    installs, [parseBanner] and [dispose].

    JavaScript strings are modelled by [string]; every separator the code
    splits on is ASCII, so splitting a sequence of code units and splitting
    its bytes agree.  32-bit packet arguments are modelled by [Z]; the code
    only compares them ([Math.min], [>=]), so no wrap-around is involved.

    The session is a record that each method transforms.  An awaited call
    ends in an [Outcome]; what the transport and the authenticators answer
    is part of the backend and of the argument of [connect].  While
    [connect] awaits its promise, the dispatcher raises events (packets,
    errors) that the two listeners of [connect] handle one after the
    other; [connect] takes them as a list and returns the session together
    with the state of its own promise.  The listeners are subscribed before
    the CONNECT packet is sent; [connectDuring] takes, as a second list,
    the events raised while that send is still awaited. *)

From Stdlib Require Import String Ascii List ZArith Bool Arith Lia.
Import ListNotations.

Local Open Scope string_scope.
Local Open Scope list_scope.

(** ** JavaScript string primitives used by the session *)

Module JsString.

(** [cons_head c l] puts [c] in front of the first piece of [l]. *)
Definition cons_head (c : ascii) (l : list string) : list string :=
  match l with
  | [] => [String c EmptyString]
  | piece :: rest => String c piece :: rest
  end.

(** [split_from sep skip s]: the pieces of [s], the first [skip] characters
    of [s] being the tail of a separator that was matched just before. A
    separator is matched at the leftmost position where it occurs, and the
    search resumes after it, as [String.prototype.split] does. *)
Fixpoint split_from (sep : string) (skip : nat) (s : string) : list string :=
  match s with
  | EmptyString => [EmptyString]
  | String c rest =>
      match skip with
      | S k => split_from sep k rest
      | O =>
          if String.prefix sep s
          then EmptyString :: split_from sep (String.length sep - 1) rest
          else cons_head c (split_from sep 0 rest)
      end
  end.

(** [s.split(sep)]. With the empty separator JavaScript returns the code
    units of [s] one by one. *)
Definition split (sep s : string) : list string :=
  match sep with
  | EmptyString => map (fun c => String c EmptyString) (list_ascii_of_string s)
  | _ => split_from sep 0 s
  end.

(** [l.join(sep)]. *)
Definition join (sep : string) (l : list string) : string :=
  String.concat sep l.

(** [!s]: a string is falsy exactly when it is empty. *)
Definition falsy (s : string) : bool :=
  match s with
  | EmptyString => true
  | _ => false
  end.

(** [c] occurs in [s]. *)
Definition occurs (c : ascii) (s : string) : Prop :=
  In c (list_ascii_of_string s).

End JsString.


(** ** Data model *)

(** A thrown JavaScript value: the code throws [Error] objects, as its
    collaborators do. *)
Inductive Exception : Set :=
| Error (message : string).

(** How an awaited call ends. *)
Inductive Outcome (A : Type) : Type :=
| Returns (value : A)
| Throws (reason : Exception).
Arguments Returns {A} value.
Arguments Throws {A} reason.

Module AdbCommand.

(** Modelled from the spec: the enum [AdbCommand] is declared in [./packet],
    which is not among the sources; section 3 of the specification gives its
    members as CONNECT, AUTH, OPEN, OKAY, WRITE and CLOSE. *)
Inductive t : Set := Auth | Close | Connect | Okay | Open | Write.

End AdbCommand.

(** The string enum [AdbPropKey]. *)
Module AdbPropKey.

Definition Product : string := "ro.product.name".
Definition Model : string := "ro.product.model".
Definition Device : string := "ro.product.device".
Definition Features : string := "features".

End AdbPropKey.

(** A packet as the session reads it: [command], [arg0], [arg1] and an
    optional [payload] (the code writes [packet.payload!]). *)
Record AdbPacket : Set := {
  command : AdbCommand.t;
  arg0 : Z;
  arg1 : Z;
  payload : option (list Byte.byte)
}.

(** The two ways the session calls [sendPacket]: with a packet, or with a
    command, two arguments and a string payload. *)
Inductive AdbPacketInit : Set :=
| SendPacket (packet : AdbPacket)
| SendCommand (command : AdbCommand.t) (arg0 arg1 : Z) (payload : string).

(** The argument of the dispatcher's [onPacket] event. *)
Record PacketEventArgs : Set := {
  handled : bool;
  packet : AdbPacket
}.

(** What the dispatcher can raise while [connect] waits: a packet on
    [onPacket] or an error on [onError]. *)
Inductive DispatcherEvent : Set :=
| PacketEvent (packet : AdbPacket)
| ErrorEvent (reason : Exception).

(** The disposable returned by subscribing to one of the two events. *)
Inductive Subscription : Set := OnPacket | OnError.

Module AdbBackend.

(** The transport behind the session. [connect] is an optional method
    ([backend.connect?.()]): [None] when the backend has none, otherwise
    how the call ends. [write] tells whether the transport accepts a packet,
    given the packets handed to it before. *)
Record t : Type := {
  connect : option (Outcome unit);
  decodeUtf8 : option (list Byte.byte) -> string;
  write : list AdbPacketInit -> AdbPacketInit -> Outcome unit;
  dispose : Outcome unit
}.

End AdbBackend.

Module AdbPacketDispatcher.

(** Modelled from the spec: the class [AdbPacketDispatcher] is declared in
    [./stream], which is not among the sources. The three negotiated
    parameters are the fields the session assigns; [running] is the inbound
    pipeline ([start], [dispose]), [packetListeners] and [errorListeners]
    count the live subscriptions of the two events, [sent] lists the calls of
    [sendPacket] in order and [lastLocalId] is the last stream id handed out
    (section 4.4 and 4.5 of the specification). *)
Record t : Set := {
  maxPayloadSize : Z;
  calculateChecksum : bool;
  appendNullToServiceString : bool;
  running : bool;
  packetListeners : nat;
  errorListeners : nat;
  sent : list AdbPacketInit;
  lastLocalId : Z
}.

Definition set_maxPayloadSize (v : Z) (d : t) : t :=
  {| maxPayloadSize := v;
     calculateChecksum := calculateChecksum d;
     appendNullToServiceString := appendNullToServiceString d;
     running := running d;
     packetListeners := packetListeners d;
     errorListeners := errorListeners d;
     sent := sent d;
     lastLocalId := lastLocalId d |}.

Definition set_calculateChecksum (v : bool) (d : t) : t :=
  {| maxPayloadSize := maxPayloadSize d;
     calculateChecksum := v;
     appendNullToServiceString := appendNullToServiceString d;
     running := running d;
     packetListeners := packetListeners d;
     errorListeners := errorListeners d;
     sent := sent d;
     lastLocalId := lastLocalId d |}.

Definition set_appendNullToServiceString (v : bool) (d : t) : t :=
  {| maxPayloadSize := maxPayloadSize d;
     calculateChecksum := calculateChecksum d;
     appendNullToServiceString := v;
     running := running d;
     packetListeners := packetListeners d;
     errorListeners := errorListeners d;
     sent := sent d;
     lastLocalId := lastLocalId d |}.

Definition set_running (v : bool) (d : t) : t :=
  {| maxPayloadSize := maxPayloadSize d;
     calculateChecksum := calculateChecksum d;
     appendNullToServiceString := appendNullToServiceString d;
     running := v;
     packetListeners := packetListeners d;
     errorListeners := errorListeners d;
     sent := sent d;
     lastLocalId := lastLocalId d |}.

Definition set_listeners (onPacket onError : nat) (d : t) : t :=
  {| maxPayloadSize := maxPayloadSize d;
     calculateChecksum := calculateChecksum d;
     appendNullToServiceString := appendNullToServiceString d;
     running := running d;
     packetListeners := onPacket;
     errorListeners := onError;
     sent := sent d;
     lastLocalId := lastLocalId d |}.

Definition set_sent (v : list AdbPacketInit) (d : t) : t :=
  {| maxPayloadSize := maxPayloadSize d;
     calculateChecksum := calculateChecksum d;
     appendNullToServiceString := appendNullToServiceString d;
     running := running d;
     packetListeners := packetListeners d;
     errorListeners := errorListeners d;
     sent := v;
     lastLocalId := lastLocalId d |}.

Definition set_lastLocalId (v : Z) (d : t) : t :=
  {| maxPayloadSize := maxPayloadSize d;
     calculateChecksum := calculateChecksum d;
     appendNullToServiceString := appendNullToServiceString d;
     running := running d;
     packetListeners := packetListeners d;
     errorListeners := errorListeners d;
     sent := sent d;
     lastLocalId := v |}.

(** [start()]. *)
Definition start (d : t) : t := set_running true d.

(** [onPacket(listener)] and [onError(listener)]: one more live listener,
    and the disposable that removes it. *)
Definition onPacket (d : t) : t * Subscription :=
  (set_listeners (S (packetListeners d)) (errorListeners d) d, OnPacket).

Definition onError (d : t) : t * Subscription :=
  (set_listeners (packetListeners d) (S (errorListeners d)) d, OnError).

(** Disposing a subscription removes its listener. *)
Definition unsubscribe (d : t) (s : Subscription) : t :=
  match s with
  | OnPacket => set_listeners (pred (packetListeners d)) (errorListeners d) d
  | OnError => set_listeners (packetListeners d) (pred (errorListeners d)) d
  end.

(** [sendPacket(...)]: the single send path; the call is recorded and ends
    as the transport's write does. *)
Definition sendPacket (backend : AdbBackend.t) (init : AdbPacketInit) (d : t)
  : t * Outcome unit :=
  (set_sent (sent d ++ [init]) d, AdbBackend.write backend (sent d) init).

(** [createStream(service)]: a fresh local id and an OPEN packet naming the
    service. The stream itself is not part of the session's state. *)
Definition createStream (backend : AdbBackend.t) (service : string) (d : t)
  : t * Outcome unit :=
  let localId := (lastLocalId d + 1)%Z in
  sendPacket backend (SendCommand AdbCommand.Open localId 0 service)
    (set_lastLocalId localId d).

(** [dispose()]: the inbound pipeline stops. *)
Definition dispose (d : t) : t := set_running false d.

End AdbPacketDispatcher.

Module AdbAuthenticationHandler.

(** Modelled from the spec: the class [AdbAuthenticationHandler] is declared
    in [./auth], which is not among the sources. Section 4.2 of the
    specification gives its contract: [next(authPacket)] is stateful and
    either produces the AUTH packet to send or fails. The configured
    authenticators are taken as the answer they give to the AUTH packets
    received so far, the current one last. *)
Definition Authenticators : Type := list AdbPacket -> Outcome AdbPacket.

Record t : Type := {
  authenticators : Authenticators;
  received : list AdbPacket
}.

(** [new AdbAuthenticationHandler(authenticators, backend)]. *)
Definition new (a : Authenticators) (backend : AdbBackend.t) : t :=
  {| authenticators := a; received := [] |}.

(** [next(packet)]. *)
Definition next (packet : AdbPacket) (h : t) : t * Outcome AdbPacket :=
  let seen := received h ++ [packet] in
  ({| authenticators := authenticators h; received := seen |},
   authenticators h seen).

End AdbAuthenticationHandler.

Module PromiseResolver.

(** The promise of a [PromiseResolver<void>]: it settles once, later calls
    of [resolve] or [reject] change nothing. *)
Inductive t : Set :=
| Pending
| Fulfilled
| Rejected (reason : Exception).

Definition resolve (r : t) : t :=
  match r with
  | Pending => Fulfilled
  | _ => r
  end.

Definition reject (reason : Exception) (r : t) : t :=
  match r with
  | Pending => Rejected reason
  | _ => r
  end.

End PromiseResolver.

(** The fields of an [Adb] object. [tcpip] and [reverse] are command objects
    of [./commands] and hold no state of the session. *)
Record Adb : Type := {
  packetDispatcher : AdbPacketDispatcher.t;
  backend : AdbBackend.t;
  _connected : bool;
  _product : option string;
  _model : option string;
  _device : option string;
  _features : option (list string)
}.

(** The read-only accessors. *)
Definition connected (this : Adb) : bool := _connected this.
Definition product (this : Adb) : option string := _product this.
Definition model (this : Adb) : option string := _model this.
Definition device (this : Adb) : option string := _device this.
Definition features (this : Adb) : option (list string) := _features this.

Definition set_packetDispatcher (d : AdbPacketDispatcher.t) (this : Adb) : Adb :=
  {| packetDispatcher := d;
     backend := backend this;
     _connected := _connected this;
     _product := _product this;
     _model := _model this;
     _device := _device this;
     _features := _features this |}.

Definition set_connected (v : bool) (this : Adb) : Adb :=
  {| packetDispatcher := packetDispatcher this;
     backend := backend this;
     _connected := v;
     _product := _product this;
     _model := _model this;
     _device := _device this;
     _features := _features this |}.

Definition set_product (v : option string) (this : Adb) : Adb :=
  {| packetDispatcher := packetDispatcher this;
     backend := backend this;
     _connected := _connected this;
     _product := v;
     _model := _model this;
     _device := _device this;
     _features := _features this |}.

Definition set_model (v : option string) (this : Adb) : Adb :=
  {| packetDispatcher := packetDispatcher this;
     backend := backend this;
     _connected := _connected this;
     _product := _product this;
     _model := v;
     _device := _device this;
     _features := _features this |}.

Definition set_device (v : option string) (this : Adb) : Adb :=
  {| packetDispatcher := packetDispatcher this;
     backend := backend this;
     _connected := _connected this;
     _product := _product this;
     _model := _model this;
     _device := v;
     _features := _features this |}.

Definition set_features (v : option (list string)) (this : Adb) : Adb :=
  {| packetDispatcher := packetDispatcher this;
     backend := backend this;
     _connected := _connected this;
     _product := _product this;
     _model := _model this;
     _device := _device this;
     _features := v |}.

(** [new Adb(backend)]; [dispatcher] is the object built by
    [new AdbPacketDispatcher(backend)]. The constructor also registers
    [dispose] on the backend's [onDisconnected] event. *)
Definition new_Adb (backend : AdbBackend.t) (dispatcher : AdbPacketDispatcher.t)
  : Adb :=
  {| packetDispatcher := dispatcher;
     backend := backend;
     _connected := false;
     _product := None;
     _model := None;
     _device := None;
     _features := None |}.

(** ** Banner parsing *)

(** The body of the loop of [parseBanner], for one [prop]. *)
Definition parseProp (this : Adb) (prop : string) : Adb :=
  if JsString.falsy prop then this
  else
    let keyValue := JsString.split "=" prop in
    if negb (Nat.eqb (List.length keyValue) 2) then this
    else
      match keyValue with
      | [key; value] =>
          if String.eqb key AdbPropKey.Product then set_product (Some value) this
          else if String.eqb key AdbPropKey.Model then set_model (Some value) this
          else if String.eqb key AdbPropKey.Device then set_device (Some value) this
          else if String.eqb key AdbPropKey.Features
               then set_features (Some (JsString.split "," value)) this
          else this
      | _ => this
      end.

(** [parseBanner(banner)]. *)
Definition parseBanner (banner : string) (this : Adb) : Adb :=
  let this := set_features (Some []) this in
  let pieces := JsString.split "::" banner in
  if Nat.ltb 1 (List.length pieces) then
    let props := nth 1 pieces EmptyString in
    fold_left parseProp (JsString.split ";" props) this
  else this.

(** ** The entries of a banner, as [parseBanner] delimits them

    These definitions are used to state what [parseBanner] does. *)

(** The strings the loop of [parseBanner] runs over: the pieces of the
    second [::] section between semicolons, none when there is no second
    section. *)
Definition banner_entries (banner : string) : list string :=
  let pieces := JsString.split "::" banner in
  if Nat.ltb 1 (List.length pieces)
  then JsString.split ";" (nth 1 pieces EmptyString)
  else [].

(** The value that the entry [prop] gives to [key]: [prop] is [key=value]
    with a single [=]. *)
Definition entry_value (key prop : string) : option string :=
  match JsString.split "=" prop with
  | [k; v] => if String.eqb k key then Some v else None
  | _ => None
  end.

(** The values that the entries give to [key], in order. *)
Fixpoint entry_values (key : string) (entries : list string) : list string :=
  match entries with
  | [] => []
  | prop :: rest =>
      match entry_value key prop with
      | Some v => v :: entry_values key rest
      | None => entry_values key rest
      end
  end.

Definition banner_values (key banner : string) : list string :=
  entry_values key (banner_entries banner).

(** ** The routing components of the demo ([CacheRoute], [CacheSwitch])

    The first document of [router.tsx]. The two components are functions
    of their props and of what the hooks of react-router and React return;
    the hooks' results are arguments here, and the state that React keeps
    for a mounted component between two renders ([useRef], [useMemo]) is
    passed from one render to the next. *)

Module Router.

(** The [path] of a route: a string or an array of strings. *)
Inductive Path : Set :=
| PathString (s : string)
| PathList (l : list string).

(** [path ? ... : ...]: a string is truthy unless it is empty, an array
    always. *)
Definition truthy (p : Path) : bool :=
  match p with
  | PathString s => negb (JsString.falsy s)
  | PathList _ => true
  end.

(** The [match] and [location] objects of react-router. *)
Record Match : Set := {
  params : list (string * string);
  isExact : bool;
  matchedPath : string;
  url : string
}.

Record Location : Set := {
  pathname : string;
  search : string;
  hash : string
}.

(** What [element.type] is compared with: the component [CacheRoute], or
    another component (Route, Redirect, ...). *)
Inductive ComponentType : Set :=
| CacheRouteType
| OtherType (name : string).

Module Props.

(** The props that the two components read or set, and those that
    [matchPath] reads. The children of an element are carried along by
    [cloneElement] and not looked at. *)
Record t : Set := {
  path : option Path;
  from : option string;
  exact : option bool;
  strict : option bool;
  sensitive : option bool;
  noCache : option bool;
  visible : option bool;
  location : option Location;
  computedMatch : option Match
}.

Definition set_path (v : option Path) (p : t) : t :=
  {| path := v;
     from := from p;
     exact := exact p;
     strict := strict p;
     sensitive := sensitive p;
     noCache := noCache p;
     visible := visible p;
     location := location p;
     computedMatch := computedMatch p |}.

Definition set_visible (v : option bool) (p : t) : t :=
  {| path := path p;
     from := from p;
     exact := exact p;
     strict := strict p;
     sensitive := sensitive p;
     noCache := noCache p;
     visible := v;
     location := location p;
     computedMatch := computedMatch p |}.

Definition set_routing (l : Location) (m : option Match) (p : t) : t :=
  {| path := path p;
     from := from p;
     exact := exact p;
     strict := strict p;
     sensitive := sensitive p;
     noCache := noCache p;
     visible := visible p;
     location := Some l;
     computedMatch := m |}.

End Props.

Record ReactElement : Set := {
  type : ComponentType;
  props : Props.t
}.

(** A child: an element, or something [React.isValidElement] refuses (a
    string, a number). Children that are null or boolean reach neither
    callback with an element and are left out. *)
Inductive ReactNode : Set :=
| Element (element : ReactElement)
| Text (text : string).

(** [React.cloneElement(element, extra)] for the props set here. *)
Definition cloneVisible (visible : bool) (e : ReactElement) : ReactElement :=
  {| type := type e; props := Props.set_visible (Some visible) (props e) |}.

Definition cloneRouting (l : Location) (m : option Match) (e : ReactElement)
  : ReactElement :=
  {| type := type e; props := Props.set_routing l m (props e) |}.

(** *** Stack props *)

(** A style set: for each slot, its declarations. *)
Definition StyleSet : Set := list (string * list (string * string)).

Record IStackProps : Set := {
  childrenGap : Z;
  padding : Z;
  verticalFill : bool;
  className : option string;
  styles : option StyleSet
}.

Definition DefaultStackProps : IStackProps :=
  {| childrenGap := 8;
     padding := 20;
     verticalFill := true;
     className := None;
     styles := None |}.

(** [slideUpIn10] is [AnimationClassNames.slideUpIn10] of Fluent UI. *)
Definition RouteStackProps (slideUpIn10 : string) : IStackProps :=
  {| childrenGap := childrenGap DefaultStackProps;
     padding := padding DefaultStackProps;
     verticalFill := verticalFill DefaultStackProps;
     className := Some slideUpIn10;
     styles := Some [("root", [("overflow", "auto")])] |}.

(** The factory given to [useMemo] in [CacheRoute]; [matched] is whether
    [match] is truthy, [concatStyleSets] the function of Fluent UI. *)
Definition stackPropsFor
  (concatStyleSets : option StyleSet -> StyleSet -> StyleSet)
  (slideUpIn10 : string) (matched : bool) : IStackProps :=
  {| childrenGap := childrenGap (RouteStackProps slideUpIn10);
     padding := padding (RouteStackProps slideUpIn10);
     verticalFill := verticalFill (RouteStackProps slideUpIn10);
     className := className (RouteStackProps slideUpIn10);
     styles :=
       Some (concatStyleSets (styles (RouteStackProps slideUpIn10))
               [("root", [("display", if matched then "flex" else "none")])]) |}.

(** *** [CacheRoute] *)

(** What React keeps for a mounted [CacheRoute]: the ref [everMatched] and
    the memo of [useMemo], the dependencies it was computed for and its
    value. *)
Record CacheRouteState : Set := {
  everMatched : bool;
  memo : option (list bool * IStackProps)
}.

(** A component that was just mounted. *)
Definition mounted : CacheRouteState :=
  {| everMatched := false; memo := None |}.

(** Two dependency arrays are the same when they agree item by item. *)
Fixpoint sameDeps (a b : list bool) : bool :=
  match a, b with
  | [], [] => true
  | x :: a', y :: b' => Bool.eqb x y && sameDeps a' b'
  | _, _ => false
  end.

(** [useMemo(factory, deps)]: the stored value when the dependencies are
    those of the previous render, a fresh one otherwise. *)
Definition useMemo (factory : unit -> IStackProps) (deps : list bool)
  (stored : option (list bool * IStackProps))
  : option (list bool * IStackProps) * IStackProps :=
  match stored with
  | Some (previous, value) =>
      if sameDeps previous deps then (stored, value)
      else (Some (deps, factory tt), factory tt)
  | None => (Some (deps, factory tt), factory tt)
  end.

(** What [CacheRoute] returns when it does not return null: the [Stack]
    with its props and children. *)
Record Stack : Set := {
  stackProps : IStackProps;
  stackChildren : list ReactNode
}.

Definition isMatch (m : option Match) : bool :=
  match m with
  | Some _ => true
  | None => false
  end.

Definition isTrue (b : option bool) : bool :=
  match b with
  | Some true => true
  | _ => false
  end.

(** One render of [CacheRoute]: [m] is what [useRouteMatch(props)]
    returns, [children] are [props.children]. *)
Definition CacheRoute
  (concatStyleSets : option StyleSet -> StyleSet -> StyleSet)
  (slideUpIn10 : string)
  (props0 : Props.t) (children : list ReactNode) (m : option Match)
  (st : CacheRouteState) : CacheRouteState * option Stack :=
  let ever :=
    if negb (everMatched st) && isMatch m then true else everMatched st in
  let '(stored, stackProps0) :=
    useMemo (fun _ => stackPropsFor concatStyleSets slideUpIn10 (isMatch m))
      [isMatch m] (memo st) in
  let st' := {| everMatched := ever; memo := stored |} in
  if isTrue (Props.noCache props0) && negb (isMatch m) then (st', None)
  else if negb ever then (st', None)
  else
    (st',
     Some {| stackProps := stackProps0;
             stackChildren :=
               map (fun child =>
                      match child with
                      | Element e => Element (cloneVisible (isMatch m) e)
                      | Text _ => child
                      end) children |}).

(** A render of a mounted [CacheRoute]: its props, its children and the
    match of the location at that time. *)
Record Render : Set := {
  renderProps : Props.t;
  renderChildren : list ReactNode;
  renderMatch : option Match
}.

(** The state after the renders of [history], the earliest first. *)
Definition afterRenders
  (concatStyleSets : option StyleSet -> StyleSet -> StyleSet)
  (slideUpIn10 : string) (history : list Render) : CacheRouteState :=
  fold_left
    (fun st r =>
       fst (CacheRoute concatStyleSets slideUpIn10 (renderProps r)
              (renderChildren r) (renderMatch r) st))
    history mounted.

(** *** [CacheSwitch] *)

(** The locals that the callback of [React.Children.forEach] assigns. *)
Record Locals : Set := {
  element : option ReactElement;
  computedMatch : option Match;
  cached : list ReactElement
}.

Definition isCacheRoute (child : ReactElement) : bool :=
  match type child with
  | CacheRouteType => true
  | OtherType _ => false
  end.

(** [child.props.path ?? child.props.from]. *)
Definition childPath (child : ReactElement) : option Path :=
  match Props.path (props child) with
  | Some p => Some p
  | None => option_map PathString (Props.from (props child))
  end.

(** The [match] of the callback for [child]: [matchPath] on the location
    when the path is truthy, the match of the context otherwise. *)
Definition childMatch (matchPath : string -> Props.t -> option Match)
  (location : Location) (contextMatch : option Match) (child : ReactElement)
  : option Match :=
  match childPath child with
  | Some p =>
      if truthy p
      then matchPath (pathname location)
             (Props.set_path (Some p) (props child))
      else contextMatch
  | None => contextMatch
  end.

(** The callback of [React.Children.forEach]. *)
Definition forEachChild (matchPath : string -> Props.t -> option Match)
  (location : Location) (contextMatch : option Match)
  (locals : Locals) (child : ReactNode) : Locals :=
  match child with
  | Text _ => locals
  | Element child =>
      let locals :=
        if isCacheRoute child
        then {| element := element locals;
                computedMatch := computedMatch locals;
                cached := cached locals ++ [child] |}
        else locals in
      match computedMatch locals with
      | Some _ => locals
      | None =>
          match childMatch matchPath location contextMatch child with
          | Some m =>
              {| element := if isCacheRoute child then None else Some child;
                 computedMatch := Some m;
                 cached := cached locals |}
          | None => locals
          end
      end
  end.

(** What [CacheSwitch] returns: the cached routes, then the element that
    matched, cloned with the location and the match, or nothing. *)
Record Fragment : Set := {
  cachedRoutes : list ReactElement;
  matchedRoute : option ReactElement
}.

(** [CacheSwitch]: [location] is what [useLocation()] returns,
    [contextMatch] what [useRouteMatch()] returns. *)
Definition CacheSwitch (matchPath : string -> Props.t -> option Match)
  (location : Location) (contextMatch : option Match)
  (children : list ReactNode) : Fragment :=
  let locals :=
    fold_left (forEachChild matchPath location contextMatch) children
      {| element := None; computedMatch := None; cached := [] |} in
  {| cachedRoutes := cached locals;
     matchedRoute :=
       match element locals with
       | Some e => Some (cloneRouting location (computedMatch locals) e)
       | None => None
       end |}.

(** The children that are elements, in order. *)
Fixpoint elementsOf (children : list ReactNode) : list ReactElement :=
  match children with
  | [] => []
  | Element e :: rest => e :: elementsOf rest
  | Text _ :: rest => elementsOf rest
  end.

(** The first child, among the elements, that the location matches. *)
Definition firstMatch (matchPath : string -> Props.t -> option Match)
  (location : Location) (contextMatch : option Match)
  (children : list ReactNode) : option ReactElement :=
  find (fun e => isMatch (childMatch matchPath location contextMatch e))
    (elementsOf children).

(** A memo holds the value of the factory for its dependency. *)
Definition memoSound
  (concatStyleSets : option StyleSet -> StyleSet -> StyleSet)
  (slideUpIn10 : string) (st : CacheRouteState) : Prop :=
  forall deps value,
    memo st = Some (deps, value) ->
    exists b, deps = [b] /\ value = stackPropsFor concatStyleSets slideUpIn10 b.

(** *** Sample routes *)

(** A [matchPath] that matches a string path equal to the pathname. *)
Definition sampleMatchPath (pathname0 : string) (p : Props.t) : option Match :=
  match Props.path p with
  | Some (PathString s) =>
      if String.eqb s pathname0
      then Some {| params := []; isExact := true; matchedPath := s;
                   url := pathname0 |}
      else None
  | _ => None
  end.

Definition sampleProps (p : option string) : Props.t :=
  {| Props.path := option_map PathString p;
     Props.from := None;
     Props.exact := None;
     Props.strict := None;
     Props.sensitive := None;
     Props.noCache := None;
     Props.visible := None;
     Props.location := None;
     Props.computedMatch := None |}.

Definition sampleLocation (pathname0 : string) : Location :=
  {| pathname := pathname0; search := EmptyString; hash := EmptyString |}.

Definition homeRoute : ReactElement :=
  {| type := OtherType "Route"; props := sampleProps (Some "/") |}.

Definition shellRoute : ReactElement :=
  {| type := CacheRouteType; props := sampleProps (Some "/shell") |}.

Definition homeMatch : Match :=
  {| params := []; isExact := true; matchedPath := "/"; url := "/" |}.

(** Fluent UI's [concatStyleSets], put as: the sets one after the other. *)
Definition sampleConcat (a : option StyleSet) (b : StyleSet) : StyleSet :=
  match a with
  | Some s => s ++ b
  | None => b
  end.

End Router.

(** ** The handshake *)

Section Session.

(** [AdbFeatures.StatV2], a member of the enum of [./features], and
    [escapeArg] of [./commands]; neither file is among the sources. *)
Variable StatV2 : string.
Variable escapeArg : string -> string.

(** The constants of [connect]. *)
Definition version : Z := 0x01000001.
Definition versionNoChecksum : Z := 0x01000001.
Definition maxPayloadSize : Z := 0x100000.

Definition features_list : list string :=
  [ "shell_v2"; "cmd"; StatV2; "ls_v2"; "fixed_push_mkdir"; "apex"; "abb";
    "fixed_push_symlink_timestamp"; "abb_exec"; "remount_shell"; "track_app";
    "sendrecv_v2"; "sendrecv_v2_brotli"; "sendrecv_v2_lz4"; "sendrecv_v2_zstd";
    "sendrecv_v2_dry_run_send" ].

(** The local [features] of [connect]: the list joined by commas. *)
Definition features_csv : string := JsString.join "," features_list.

(** The character [\0]. *)
Definition NUL : string := String Ascii.zero EmptyString.

(** The CONNECT packet that [connect] sends. *)
Definition connectPacket : AdbPacketInit :=
  SendCommand AdbCommand.Connect version maxPayloadSize
    ("host::features=" ++ features_csv ++ ";" ++ NUL).

(** The error thrown for a packet that the handshake does not expect. *)
Definition notInCorrectState : Exception :=
  Error "Device not in correct state. Reconnect your device and try again".

(** What the two listeners of [connect] close over: the session and the
    locals [resolver], [authHandler] and [disposableList]. *)
Record Handshake : Type := {
  this : Adb;
  resolver : PromiseResolver.t;
  authHandler : AdbAuthenticationHandler.t;
  disposableList : list Subscription
}.

Definition set_this (v : Adb) (h : Handshake) : Handshake :=
  {| this := v;
     resolver := resolver h;
     authHandler := authHandler h;
     disposableList := disposableList h |}.

Definition set_resolver (v : PromiseResolver.t) (h : Handshake) : Handshake :=
  {| this := this h;
     resolver := v;
     authHandler := authHandler h;
     disposableList := disposableList h |}.

Definition set_authHandler (v : AdbAuthenticationHandler.t) (h : Handshake)
  : Handshake :=
  {| this := this h;
     resolver := resolver h;
     authHandler := v;
     disposableList := disposableList h |}.

Definition set_disposableList (v : list Subscription) (h : Handshake)
  : Handshake :=
  {| this := this h;
     resolver := resolver h;
     authHandler := authHandler h;
     disposableList := v |}.

(** The dispatcher of the session inside a handshake. *)
Definition dispatcher (h : Handshake) : AdbPacketDispatcher.t :=
  packetDispatcher (this h).

Definition set_dispatcher (d : AdbPacketDispatcher.t) (h : Handshake)
  : Handshake :=
  set_this (set_packetDispatcher d (this h)) h.

(** The assignments of the CONNECT case of the packet listener to the
    parameters of the dispatcher, for the reply [p]. *)
Definition negotiate (p : AdbPacket) (d : AdbPacketDispatcher.t)
  : AdbPacketDispatcher.t :=
  let d := AdbPacketDispatcher.set_maxPayloadSize
             (Z.min maxPayloadSize (arg1 p)) d in
  if (versionNoChecksum <=? Z.min version (arg0 p))%Z
  then
    AdbPacketDispatcher.set_appendNullToServiceString false
      (AdbPacketDispatcher.set_calculateChecksum false d)
  else d.

(** The [try] block of the packet listener, for the packet [p]: the state it
    leaves and whether it threw. *)
Definition onPacket_try (p : AdbPacket) (h : Handshake)
  : Handshake * Outcome unit :=
  match command p with
  | AdbCommand.Connect =>
      let h := set_dispatcher (negotiate p (dispatcher h)) h in
      let banner := AdbBackend.decodeUtf8 (backend (this h)) (payload p) in
      let h := set_this (parseBanner banner (this h)) h in
      (set_resolver (PromiseResolver.resolve (resolver h)) h, Returns tt)
  | AdbCommand.Auth =>
      let '(handler, answer) :=
        AdbAuthenticationHandler.next p (authHandler h) in
      let h := set_authHandler handler h in
      match answer with
      | Throws reason => (h, Throws reason)
      | Returns authPacket =>
          let '(d, written) :=
            AdbPacketDispatcher.sendPacket (backend (this h))
              (SendPacket authPacket) (dispatcher h) in
          (set_dispatcher d h, written)
      end
  | AdbCommand.Close => (h, Returns tt)
  | _ => (h, Throws notInCorrectState)
  end.

(** The listener that [connect] gives to [onPacket]: the event is marked
    handled, and what the [try] block throws rejects the resolver. *)
Definition onPacketListener (e : PacketEventArgs) (h : Handshake)
  : PacketEventArgs * Handshake :=
  let e := {| handled := true; packet := packet e |} in
  let '(h, completion) := onPacket_try (packet e) h in
  (e,
   match completion with
   | Returns _ => h
   | Throws reason =>
       set_resolver (PromiseResolver.reject reason (resolver h)) h
   end).

(** The listener that [connect] gives to [onError]. *)
Definition onErrorListener (reason : Exception) (h : Handshake) : Handshake :=
  set_resolver (PromiseResolver.reject reason (resolver h)) h.

(** The dispatcher fires one event at the listeners of the handshake, on a
    dispatcher that has no listener of another [connect] call. *)
Definition deliver (ev : DispatcherEvent) (h : Handshake) : Handshake :=
  match ev with
  | PacketEvent p => snd (onPacketListener {| handled := false; packet := p |} h)
  | ErrorEvent reason => onErrorListener reason h
  end.

(** [await resolver.promise]: events are handled one after the other while
    the promise is pending; it stays pending when they run out. *)
Fixpoint awaitResolver (events : list DispatcherEvent) (h : Handshake)
  : Handshake :=
  match events with
  | [] => h
  | ev :: rest =>
      match resolver h with
      | PromiseResolver.Pending => awaitResolver rest (deliver ev h)
      | _ => h
      end
  end.

(** [disposableList.dispose()]. *)
Definition disposeList (h : Handshake) : Handshake :=
  set_disposableList []
    (set_dispatcher
       (fold_left AdbPacketDispatcher.unsubscribe (disposableList h)
          (dispatcher h)) h).

(** The first statements of [connect] after the transport is open: the
    initial parameters, [start()], the locals and the two subscriptions. *)
Definition connect_init (authenticators : AdbAuthenticationHandler.Authenticators)
  (this0 : Adb) : Handshake :=
  let d := packetDispatcher this0 in
  let d := AdbPacketDispatcher.set_maxPayloadSize 0x1000 d in
  let d := AdbPacketDispatcher.set_calculateChecksum true d in
  let d := AdbPacketDispatcher.set_appendNullToServiceString true d in
  let d := AdbPacketDispatcher.start d in
  let handler := AdbAuthenticationHandler.new authenticators (backend this0) in
  let '(d, onPacket) := AdbPacketDispatcher.onPacket d in
  let '(d, onError) := AdbPacketDispatcher.onError d in
  {| this := set_packetDispatcher d this0;
     resolver := PromiseResolver.Pending;
     authHandler := handler;
     disposableList := [onPacket; onError] |}.

(** [connect] up to and including the send of the CONNECT packet. *)
Definition connect_send (authenticators : AdbAuthenticationHandler.Authenticators)
  (this0 : Adb) : Handshake * Outcome unit :=
  let h := connect_init authenticators this0 in
  let '(d, written) :=
    AdbPacketDispatcher.sendPacket (backend (this h)) connectPacket
      (dispatcher h) in
  (set_dispatcher d h, written).

(** The [try] and [finally] at the end of [connect], once the promise of
    the resolver is what [h] says: the session and how [connect] ends. *)
Definition connect_finish (h : Handshake) : Adb * PromiseResolver.t :=
  match resolver h with
  | PromiseResolver.Fulfilled =>
      (this (disposeList (set_this (set_connected true (this h)) h)),
       PromiseResolver.Fulfilled)
  | PromiseResolver.Rejected reason =>
      (this (disposeList h), PromiseResolver.Rejected reason)
  | PromiseResolver.Pending => (this h, PromiseResolver.Pending)
  end.

(** [connect(authenticators)], with the events that the dispatcher raises
    while it waits for the promise of the resolver, none being raised while
    the send of the CONNECT packet is awaited ([connectDuring] has those as
    well): the session afterwards and how the call ends ([Pending]: it never
    returns). *)
Definition connect (authenticators : AdbAuthenticationHandler.Authenticators)
  (events : list DispatcherEvent) (this0 : Adb) : Adb * PromiseResolver.t :=
  match AdbBackend.connect (backend this0) with
  | Some (Throws reason) => (this0, PromiseResolver.Rejected reason)
  | _ =>
      let '(h, written) := connect_send authenticators this0 in
      match written with
      | Throws reason => (this h, PromiseResolver.Rejected reason)
      | Returns _ => connect_finish (awaitResolver events h)
      end
  end.

(** The dispatcher raises [events] one after the other at the two listeners
    of the handshake, which stay subscribed whatever the promise of the
    resolver has become. *)
Definition deliverAll (events : list DispatcherEvent) (h : Handshake)
  : Handshake :=
  fold_left (fun h ev => deliver ev h) events h.

(** [connect(authenticators)] in full: the dispatcher, which was started and
    has both listeners by then, raises [inflight] while the send of the
    CONNECT packet is awaited, and [events] after the send has returned.
    Nothing disposes the listeners before the send returns, so they handle
    all of [inflight], also when the send then fails and rejects the
    call. *)
Definition connectDuring (authenticators : AdbAuthenticationHandler.Authenticators)
  (inflight events : list DispatcherEvent) (this0 : Adb)
  : Adb * PromiseResolver.t :=
  match AdbBackend.connect (backend this0) with
  | Some (Throws reason) => (this0, PromiseResolver.Rejected reason)
  | _ =>
      let '(h, written) := connect_send authenticators this0 in
      let h := deliverAll inflight h in
      match written with
      | Throws reason => (this h, PromiseResolver.Rejected reason)
      | Returns _ => connect_finish (awaitResolver events h)
      end
  end.

(** ** The other public methods

    Each leaves the session as the dispatcher call it makes leaves it; the
    stream or text it returns is not part of the session. *)

Definition createStream (service : string) (this0 : Adb) : Adb :=
  set_packetDispatcher
    (fst (AdbPacketDispatcher.createStream (backend this0) service
            (packetDispatcher this0))) this0.










(** [dispose()]: the dispatcher, then the backend. *)
Definition dispose (this0 : Adb) : Adb * Outcome unit :=
  (set_packetDispatcher (AdbPacketDispatcher.dispose (packetDispatcher this0))
     this0,
   AdbBackend.dispose (backend this0)).



(** ** Observations used to state the properties *)

(** The first CONNECT packet among the events. *)
Fixpoint firstConnect (events : list DispatcherEvent) : option AdbPacket :=
  match events with
  | [] => None
  | PacketEvent p :: rest =>
      match command p with
      | AdbCommand.Connect => Some p
      | _ => firstConnect rest
      end
  | ErrorEvent _ :: rest => firstConnect rest
  end.

(** The device metadata, as the four accessors give it. *)
Definition metadata (a : Adb)
  : option string * option string * option string * option (list string) :=
  (product a, model a, device a, features a).

(** The negotiated parameters of the dispatcher. *)
Definition parameters (a : Adb) : Z * bool * bool :=
  (AdbPacketDispatcher.maxPayloadSize (packetDispatcher a),
   AdbPacketDispatcher.calculateChecksum (packetDispatcher a),
   AdbPacketDispatcher.appendNullToServiceString (packetDispatcher a)).

(** The live listeners of the two events of the dispatcher. *)
Definition listeners (a : Adb) : nat * nat :=
  (AdbPacketDispatcher.packetListeners (packetDispatcher a),
   AdbPacketDispatcher.errorListeners (packetDispatcher a)).

(** ** Reading a stream to its end *)

(** What a stream raises after it is opened: a chunk on [onData], or
    [onClose]. *)
Inductive StreamEvent : Set :=
| DataEvent (buffer : list Byte.byte)
| CloseEvent.

(** What the two listeners of [createStreamAndReadAll] close over: the
    local [result] and the promise of its resolver ([None]: pending). *)
Record ReadAll : Set := {
  result : string;
  resolved : option string
}.

(** The listener of [onData] appends the decoded chunk to [result]; the
    listener of [onClose] resolves the promise with [result]. *)
Definition readAll_listen (b : AdbBackend.t) (st : ReadAll) (ev : StreamEvent)
  : ReadAll :=
  match ev with
  | DataEvent buffer =>
      {| result := result st ++ AdbBackend.decodeUtf8 b (Some buffer);
         resolved := resolved st |}
  | CloseEvent =>
      {| result := result st;
         resolved :=
           match resolved st with
           | None => Some (result st)
           | Some text => Some text
           end |}
  end.

(** The promise that [createStreamAndReadAll] returns, once the stream is
    open and has raised [events]. *)
Definition readAll (b : AdbBackend.t) (events : list StreamEvent)
  : option string :=
  resolved
    (fold_left (readAll_listen b) events
       {| result := EmptyString; resolved := None |}).

(** ** More observations *)

(** The AUTH packets among the events that come before the first CONNECT
    packet. *)
Fixpoint challengesBefore (events : list DispatcherEvent) : list AdbPacket :=
  match events with
  | [] => []
  | PacketEvent p :: rest =>
      match command p with
      | AdbCommand.Connect => []
      | AdbCommand.Auth => p :: challengesBefore rest
      | _ => challengesBefore rest
      end
  | ErrorEvent _ :: rest => challengesBefore rest
  end.

(** What the authenticators answer to the [challenges], one after the
    other, [seen] being the AUTH packets they were given before; the
    answers stop at the first failure. *)
Fixpoint answersTo (auth : AdbAuthenticationHandler.Authenticators)
  (seen challenges : list AdbPacket) : list AdbPacket :=
  match challenges with
  | [] => []
  | c :: rest =>
      match auth (seen ++ [c]) with
      | Returns answer => answer :: answersTo auth (seen ++ [c]) rest
      | Throws _ => []
      end
  end.

(** A string without any of the characters that delimit a banner. *)
Definition plainToken (s : string) : Prop :=
  ~ JsString.occurs ":"%char s /\ ~ JsString.occurs ";"%char s
  /\ ~ JsString.occurs "="%char s /\ ~ JsString.occurs ","%char s.

(** ** Sample collaborators and packets *)

(** A backend without a [connect] method whose writes are all accepted and
    which decodes a payload byte by byte. *)
Definition sampleBackend : AdbBackend.t :=
  {| AdbBackend.connect := None;
     AdbBackend.decodeUtf8 := fun bytes =>
       match bytes with
       | Some b => string_of_list_byte b
       | None => EmptyString
       end;
     AdbBackend.write := fun _ _ => Returns tt;
     AdbBackend.dispose := Returns tt |}.

(** The same backend on a transport that refuses every write. *)
Definition brokenBackend : AdbBackend.t :=
  {| AdbBackend.connect := Some (Returns tt);
     AdbBackend.decodeUtf8 := AdbBackend.decodeUtf8 sampleBackend;
     AdbBackend.write := fun _ _ => Throws (Error "transfer failed");
     AdbBackend.dispose := Returns tt |}.

(** A dispatcher that was just built: nothing sent, nobody listening. *)
Definition sampleDispatcher : AdbPacketDispatcher.t :=
  {| AdbPacketDispatcher.maxPayloadSize := 0;
     AdbPacketDispatcher.calculateChecksum := false;
     AdbPacketDispatcher.appendNullToServiceString := false;
     AdbPacketDispatcher.running := false;
     AdbPacketDispatcher.packetListeners := 0;
     AdbPacketDispatcher.errorListeners := 0;
     AdbPacketDispatcher.sent := [];
     AdbPacketDispatcher.lastLocalId := 0 |}.

Definition sampleAdb : Adb := new_Adb sampleBackend sampleDispatcher.
Definition brokenAdb : Adb := new_Adb brokenBackend sampleDispatcher.

(** Authenticators that answer every challenge with one signature packet. *)
Definition sampleSignature : AdbPacket :=
  {| command := AdbCommand.Auth; arg0 := 2; arg1 := 0; payload := None |}.

Definition sampleAuthenticators : AdbAuthenticationHandler.Authenticators :=
  fun _ => Returns sampleSignature.

(** The banner of the specification's example. *)
Definition sampleBanner : string :=
  "device::ro.product.name=widget;ro.product.model=X1;features=shell_v2,cmd;".

(** A CONNECT reply of a current daemon, and one of a daemon that still
    needs checksums. *)
Definition sampleReply : AdbPacket :=
  {| command := AdbCommand.Connect;
     arg0 := 0x01000001;
     arg1 := 0x40000;
     payload := Some (list_byte_of_string sampleBanner) |}.

Definition legacyReply : AdbPacket :=
  {| command := AdbCommand.Connect;
     arg0 := 0x01000000;
     arg1 := 0x1000;
     payload := Some (list_byte_of_string sampleBanner) |}.

Definition sampleChallenge : AdbPacket :=
  {| command := AdbCommand.Auth; arg0 := 1; arg1 := 0; payload := None |}.

Definition sampleClose : AdbPacket :=
  {| command := AdbCommand.Close; arg0 := 0; arg1 := 7; payload := None |}.

Definition sampleOkay : AdbPacket :=
  {| command := AdbCommand.Okay; arg0 := 1; arg1 := 1; payload := None |}.

(** * Properties *)

(** ** Strings *)

Example split_banner_sections :
  JsString.split "::" "device::a=b;c" = ["device"; "a=b;c"].
Proof. reflexivity. Qed.

Example split_leftmost_match :
  JsString.split "::" "a:::b" = ["a"; ":b"].
Proof. reflexivity. Qed.

Example split_trailing_separator :
  JsString.split ";" "x=1;y=2;" = ["x=1"; "y=2"; ""].
Proof. reflexivity. Qed.

Example split_empty_string : JsString.split "::" "" = [""].
Proof. reflexivity. Qed.

Example split_two_equals : JsString.split "=" "a=b=c" = ["a"; "b"; "c"].
Proof. reflexivity. Qed.

Example split_code_units : JsString.split "" "abc" = ["a"; "b"; "c"].
Proof. reflexivity. Qed.

Lemma prefix_single (c a : ascii) (s : string) :
  String.prefix (String c EmptyString) (String a s) = true -> c = a.
Proof.
  simpl. destruct (ascii_dec c a) as [Heq | Hneq]; [trivial | discriminate].
Qed.

(** A string without the separator character is a single piece. *)
Lemma split_absent (c : ascii) (s : string) :
  ~ JsString.occurs c s -> JsString.split (String c EmptyString) s = [s].
Proof.
  unfold JsString.split, JsString.occurs.
  induction s as [| a s IH]; intros Hno.
  - reflexivity.
  - cbn [JsString.split_from].
    destruct (String.prefix (String c EmptyString) (String a s)) eqn:Hpre.
    + apply prefix_single in Hpre. exfalso. apply Hno. left. symmetry. exact Hpre.
    + rewrite IH; [reflexivity |].
      intros Hin. apply Hno. right. exact Hin.
Qed.

(** ** Lists *)

Lemma fold_left_frame {A B C : Type} (f : A -> B -> A) (g : A -> C) :
  (forall a b, g (f a b) = g a) ->
  forall l a, g (fold_left f l a) = g a.
Proof.
  intros Hstep l. induction l as [| b l IH]; intros a; simpl.
  - reflexivity.
  - rewrite IH. apply Hstep.
Qed.

Lemma last_cons_default {A : Type} (l : list A) (a d : A) :
  last (a :: l) d = last l a.
Proof.
  revert a d. induction l as [| b l IH]; intros a d.
  - reflexivity.
  - change (last (a :: b :: l) d) with (last (b :: l) d).
    rewrite (IH b d), (IH b a). reflexivity.
Qed.

(** ** [parseProp] *)

Ltac split_cases :=
  repeat match goal with
         | |- context [if ?b then _ else _] => destruct b eqn:?
         | |- context [match ?x with _ => _ end] => destruct x eqn:?
         end.

Lemma parseProp_wiring (a : Adb) (prop : string) :
  packetDispatcher (parseProp a prop) = packetDispatcher a
  /\ backend (parseProp a prop) = backend a
  /\ _connected (parseProp a prop) = _connected a.
Proof.
  unfold parseProp. split_cases; repeat split; reflexivity.
Qed.

(** An entry without [=] leaves the session as it is. *)
Lemma parseProp_without_equals (a : Adb) (prop : string) :
  ~ JsString.occurs "="%char prop -> parseProp a prop = a.
Proof.
  intros Hno. unfold parseProp.
  destruct (JsString.falsy prop); [reflexivity |].
  rewrite (split_absent "="%char prop Hno). reflexivity.
Qed.

Lemma entry_value_empty (key : string) : entry_value key EmptyString = None.
Proof. reflexivity. Qed.

Ltac key_clash :=
  repeat match goal with
         | H : String.eqb _ _ = true |- _ => apply String.eqb_eq in H
         end;
  subst; try discriminate; try reflexivity.

Lemma parseProp_product (a : Adb) (prop : string) :
  product (parseProp a prop) =
  match entry_value AdbPropKey.Product prop with
  | Some v => Some v
  | None => product a
  end.
Proof.
  unfold parseProp, entry_value.
  destruct prop as [| c prop]; [reflexivity |].
  cbn [JsString.falsy].
  destruct (JsString.split "=" (String c prop)) as [| k [| v [| w l]]];
    try reflexivity.
  cbn [List.length Nat.eqb negb].
  destruct (String.eqb k AdbPropKey.Product) eqn:E1; [reflexivity |].
  split_cases; reflexivity.
Qed.

Lemma parseProp_model (a : Adb) (prop : string) :
  model (parseProp a prop) =
  match entry_value AdbPropKey.Model prop with
  | Some v => Some v
  | None => model a
  end.
Proof.
  unfold parseProp, entry_value.
  destruct prop as [| c prop]; [reflexivity |].
  cbn [JsString.falsy].
  destruct (JsString.split "=" (String c prop)) as [| k [| v [| w l]]];
    try reflexivity.
  cbn [List.length Nat.eqb negb].
  destruct (String.eqb k AdbPropKey.Product) eqn:E1;
    destruct (String.eqb k AdbPropKey.Model) eqn:E2; key_clash.
  split_cases; reflexivity.
Qed.

Lemma parseProp_device (a : Adb) (prop : string) :
  device (parseProp a prop) =
  match entry_value AdbPropKey.Device prop with
  | Some v => Some v
  | None => device a
  end.
Proof.
  unfold parseProp, entry_value.
  destruct prop as [| c prop]; [reflexivity |].
  cbn [JsString.falsy].
  destruct (JsString.split "=" (String c prop)) as [| k [| v [| w l]]];
    try reflexivity.
  cbn [List.length Nat.eqb negb].
  destruct (String.eqb k AdbPropKey.Product) eqn:E1;
    destruct (String.eqb k AdbPropKey.Model) eqn:E2;
    destruct (String.eqb k AdbPropKey.Device) eqn:E3; key_clash.
  split_cases; reflexivity.
Qed.

Lemma parseProp_features (a : Adb) (prop : string) :
  features (parseProp a prop) =
  match entry_value AdbPropKey.Features prop with
  | Some v => Some (JsString.split "," v)
  | None => features a
  end.
Proof.
  unfold parseProp, entry_value.
  destruct prop as [| c prop]; [reflexivity |].
  cbn [JsString.falsy].
  destruct (JsString.split "=" (String c prop)) as [| k [| v [| w l]]];
    try reflexivity.
  cbn [List.length Nat.eqb negb].
  destruct (String.eqb k AdbPropKey.Product) eqn:E1;
    destruct (String.eqb k AdbPropKey.Model) eqn:E2;
    destruct (String.eqb k AdbPropKey.Device) eqn:E3;
    destruct (String.eqb k AdbPropKey.Features) eqn:E4; key_clash.
Qed.

(** ** [parseBanner] *)

Lemma parseBanner_entries (banner : string) (a : Adb) :
  parseBanner banner a =
  fold_left parseProp (banner_entries banner) (set_features (Some []) a).
Proof.
  unfold parseBanner, banner_entries.
  destruct (Nat.ltb 1 (List.length (JsString.split "::" banner))); reflexivity.
Qed.

Lemma banner_entries_no_section (banner : string) :
  List.length (JsString.split "::" banner) <= 1 -> banner_entries banner = [].
Proof.
  intros Hlen. unfold banner_entries.
  destruct (Nat.ltb_spec 1 (List.length (JsString.split "::" banner)));
    [lia | reflexivity].
Qed.

Lemma parseBanner_wiring (banner : string) (a : Adb) :
  packetDispatcher (parseBanner banner a) = packetDispatcher a
  /\ backend (parseBanner banner a) = backend a
  /\ _connected (parseBanner banner a) = _connected a.
Proof.
  rewrite parseBanner_entries.
  repeat split.
  - rewrite (fold_left_frame parseProp packetDispatcher); [reflexivity |].
    intros x prop. apply parseProp_wiring.
  - rewrite (fold_left_frame parseProp backend); [reflexivity |].
    intros x prop. apply parseProp_wiring.
  - rewrite (fold_left_frame parseProp _connected); [reflexivity |].
    intros x prop. apply parseProp_wiring.
Qed.

(** A field that each entry either sets from its value or leaves alone
    holds, after the loop, the last value given to it. *)
Lemma fold_parseProp_last (get : Adb -> option string) (key : string) :
  (forall a prop,
      get (parseProp a prop) =
      match entry_value key prop with
      | Some v => Some v
      | None => get a
      end) ->
  forall entries a,
    get (fold_left parseProp entries a) =
    last (map Some (entry_values key entries)) (get a).
Proof.
  intros Hstep entries.
  induction entries as [| prop rest IH]; intros a.
  - reflexivity.
  - cbn [fold_left entry_values]. rewrite IH, Hstep.
    destruct (entry_value key prop) as [v |].
    + cbn [map]. rewrite last_cons_default. reflexivity.
    + reflexivity.
Qed.

Lemma fold_parseProp_features (entries : list string) :
  forall (a : Adb) (l : list string),
    features a = Some l ->
    features (fold_left parseProp entries a) =
    Some (last (map (JsString.split ",")
                  (entry_values AdbPropKey.Features entries)) l).
Proof.
  induction entries as [| prop rest IH]; intros a l Hl.
  - exact Hl.
  - cbn [fold_left entry_values].
    pose proof (parseProp_features a prop) as Hstep.
    destruct (entry_value AdbPropKey.Features prop) as [v |].
    + rewrite (IH _ _ Hstep). cbn [map].
      rewrite last_cons_default. reflexivity.
    + rewrite Hl in Hstep. apply (IH _ _ Hstep).
Qed.

Lemma fold_parseProp_skip (before after : list string) (prop : string) (a : Adb) :
  ~ JsString.occurs "="%char prop ->
  fold_left parseProp (before ++ prop :: after) a =
  fold_left parseProp (before ++ after) a.
Proof.
  intros Hno. rewrite !fold_left_app. cbn [fold_left].
  rewrite (parseProp_without_equals _ _ Hno). reflexivity.
Qed.

(** ** The listeners of the handshake *)

Lemma awaitResolver_settled (events : list DispatcherEvent) (h : Handshake) :
  resolver h <> PromiseResolver.Pending -> awaitResolver events h = h.
Proof.
  intros Hset. destruct events as [| ev rest]; [reflexivity |].
  cbn [awaitResolver]. destruct (resolver h); [contradiction | | ]; reflexivity.
Qed.

Lemma awaitResolver_pending (ev : DispatcherEvent) (rest : list DispatcherEvent)
  (h : Handshake) :
  resolver h = PromiseResolver.Pending ->
  awaitResolver (ev :: rest) h = awaitResolver rest (deliver ev h).
Proof.
  intros Hpend. cbn [awaitResolver]. rewrite Hpend. reflexivity.
Qed.

Lemma negotiate_parameters (p : AdbPacket) (d : AdbPacketDispatcher.t) :
  AdbPacketDispatcher.maxPayloadSize (negotiate p d) =
    Z.min maxPayloadSize (arg1 p)
  /\ AdbPacketDispatcher.calculateChecksum (negotiate p d) =
     (if (versionNoChecksum <=? Z.min version (arg0 p))%Z
      then false else AdbPacketDispatcher.calculateChecksum d)
  /\ AdbPacketDispatcher.appendNullToServiceString (negotiate p d) =
     (if (versionNoChecksum <=? Z.min version (arg0 p))%Z
      then false else AdbPacketDispatcher.appendNullToServiceString d).
Proof.
  unfold negotiate.
  destruct (versionNoChecksum <=? Z.min version (arg0 p))%Z;
    repeat split; reflexivity.
Qed.

Lemma negotiate_rest (p : AdbPacket) (d : AdbPacketDispatcher.t) :
  AdbPacketDispatcher.packetListeners (negotiate p d) =
    AdbPacketDispatcher.packetListeners d
  /\ AdbPacketDispatcher.errorListeners (negotiate p d) =
     AdbPacketDispatcher.errorListeners d
  /\ AdbPacketDispatcher.sent (negotiate p d) = AdbPacketDispatcher.sent d.
Proof.
  unfold negotiate.
  destruct (versionNoChecksum <=? Z.min version (arg0 p))%Z;
    repeat split; reflexivity.
Qed.

(** What the packet listener leaves for a CONNECT packet. *)
Lemma deliver_connect (p : AdbPacket) (h : Handshake) :
  command p = AdbCommand.Connect ->
  deliver (PacketEvent p) h =
  {| this :=
       parseBanner (AdbBackend.decodeUtf8 (backend (this h)) (payload p))
         (set_packetDispatcher (negotiate p (dispatcher h)) (this h));
     resolver := PromiseResolver.resolve (resolver h);
     authHandler := authHandler h;
     disposableList := disposableList h |}.
Proof.
  intros Hcmd. unfold deliver, onPacketListener, onPacket_try.
  cbn [packet]. rewrite Hcmd. reflexivity.
Qed.

(** No listener touches the connected flag, the backend, the subscriptions
    or the list of disposables. *)
Lemma deliver_wiring (ev : DispatcherEvent) (h : Handshake) :
  _connected (this (deliver ev h)) = _connected (this h)
  /\ backend (this (deliver ev h)) = backend (this h)
  /\ listeners (this (deliver ev h)) = listeners (this h)
  /\ disposableList (deliver ev h) = disposableList h.
Proof.
  destruct ev as [p | reason]; [| repeat split; reflexivity].
  destruct (command p) eqn:Hcmd.
  2, 4, 5, 6:
    unfold deliver, onPacketListener, onPacket_try; cbn [packet];
    rewrite Hcmd; repeat split; reflexivity.
  - unfold deliver, onPacketListener, onPacket_try. cbn [packet].
    rewrite Hcmd.
    destruct (AdbAuthenticationHandler.next p (authHandler h))
      as [handler [authPacket | reason]].
    + unfold AdbPacketDispatcher.sendPacket.
      destruct (AdbBackend.write (backend (this (set_authHandler handler h)))
                  (AdbPacketDispatcher.sent (dispatcher (set_authHandler handler h)))
                  (SendPacket authPacket));
        repeat split; reflexivity.
    + repeat split; reflexivity.
  - rewrite (deliver_connect p h Hcmd). unfold listeners. cbn [this disposableList].
    match goal with
    | |- context [parseBanner ?b ?a] =>
        destruct (parseBanner_wiring b a) as (Hd & Hb & Hc)
    end.
    rewrite Hd, Hb, Hc. cbn [packetDispatcher set_packetDispatcher].
    destruct (negotiate_rest p (dispatcher h)) as (Hp & He & _).
    rewrite Hp, He. repeat split; reflexivity.
Qed.

Lemma deliver_connect_pending (p : AdbPacket) (h : Handshake) :
  command p = AdbCommand.Connect ->
  resolver h = PromiseResolver.Pending ->
  resolver (deliver (PacketEvent p) h) = PromiseResolver.Fulfilled
  /\ packetDispatcher (this (deliver (PacketEvent p) h)) =
     negotiate p (dispatcher h).
Proof.
  intros Hcmd Hpend. rewrite (deliver_connect p h Hcmd).
  cbn [resolver this]. rewrite Hpend. split; [reflexivity |].
  match goal with
  | |- context [parseBanner ?b ?a] =>
      destruct (parseBanner_wiring b a) as (Hd & _)
  end.
  rewrite Hd. reflexivity.
Qed.

(** An event other than a CONNECT packet does not fulfil a pending promise
    and leaves the parameters and the metadata as they are. *)
Lemma deliver_other (ev : DispatcherEvent) (h : Handshake) :
  firstConnect [ev] = None ->
  resolver h = PromiseResolver.Pending ->
  resolver (deliver ev h) <> PromiseResolver.Fulfilled
  /\ parameters (this (deliver ev h)) = parameters (this h)
  /\ metadata (this (deliver ev h)) = metadata (this h).
Proof.
  intros Hnot Hpend.
  destruct ev as [p | reason].
  - cbn [firstConnect] in Hnot.
    unfold deliver, onPacketListener, onPacket_try. cbn [packet].
    destruct (command p) eqn:Hcmd; try discriminate Hnot.
    2, 3, 4, 5:
      cbn [fst snd set_resolver resolver this]; rewrite ?Hpend;
      repeat split; cbn; congruence.
    destruct (AdbAuthenticationHandler.next p (authHandler h))
      as [handler [authPacket | reason]].
    + unfold AdbPacketDispatcher.sendPacket.
      destruct (AdbBackend.write (backend (this (set_authHandler handler h)))
                  (AdbPacketDispatcher.sent (dispatcher (set_authHandler handler h)))
                  (SendPacket authPacket));
        cbn [fst snd set_resolver set_dispatcher set_this set_authHandler
               resolver this];
        rewrite ?Hpend; repeat split; cbn; congruence.
    + cbn [fst snd set_resolver set_authHandler resolver this].
      rewrite Hpend. repeat split; cbn; congruence.
  - unfold deliver, onErrorListener. cbn [set_resolver resolver this].
    rewrite Hpend. repeat split; cbn; congruence.
Qed.

Lemma firstConnect_other (ev : DispatcherEvent) (rest : list DispatcherEvent) :
  firstConnect [ev] = None -> firstConnect (ev :: rest) = firstConnect rest.
Proof.
  destruct ev as [p | reason]; cbn [firstConnect]; [| reflexivity].
  destruct (command p); try reflexivity. discriminate.
Qed.

Lemma firstConnect_head (ev : DispatcherEvent) :
  firstConnect [ev] = None
  \/ exists p, ev = PacketEvent p /\ command p = AdbCommand.Connect.
Proof.
  destruct ev as [p | reason]; [| left; reflexivity].
  destruct (command p) eqn:Hcmd;
    try (left; cbn [firstConnect]; rewrite Hcmd; reflexivity).
  right. exists p. split; [reflexivity | exact Hcmd].
Qed.

Lemma firstConnect_command (events : list DispatcherEvent) (reply : AdbPacket) :
  firstConnect events = Some reply ->
  command reply = AdbCommand.Connect /\ In (PacketEvent reply) events.
Proof.
  induction events as [| ev rest IH]; [discriminate |].
  destruct ev as [p | reason]; cbn [firstConnect].
  - destruct (command p) eqn:Hcmd; intros Hfirst;
      try (destruct (IH Hfirst) as [Hc Hin]; split; [exact Hc | right; exact Hin]).
    injection Hfirst as <-. split; [exact Hcmd | left; reflexivity].
  - intros Hfirst. destruct (IH Hfirst) as [Hc Hin].
    split; [exact Hc | right; exact Hin].
Qed.

(** ** Waiting for the promise *)

Lemma awaitResolver_wiring (events : list DispatcherEvent) :
  forall h : Handshake,
    _connected (this (awaitResolver events h)) = _connected (this h)
    /\ backend (this (awaitResolver events h)) = backend (this h)
    /\ listeners (this (awaitResolver events h)) = listeners (this h)
    /\ disposableList (awaitResolver events h) = disposableList h.
Proof.
  induction events as [| ev rest IH]; intros h.
  - repeat split; reflexivity.
  - cbn [awaitResolver].
    destruct (resolver h); [| repeat split; reflexivity ..].
    destruct (IH (deliver ev h)) as (Hc & Hb & Hl & Hd).
    destruct (deliver_wiring ev h) as (Hc' & Hb' & Hl' & Hd').
    repeat split; congruence.
Qed.

(** A handshake that ends fulfilled was completed by the first CONNECT
    packet, which fixed the parameters. *)
Lemma awaitResolver_fulfilled (events : list DispatcherEvent) :
  forall h : Handshake,
    resolver h = PromiseResolver.Pending ->
    resolver (awaitResolver events h) = PromiseResolver.Fulfilled ->
    exists reply : AdbPacket,
      firstConnect events = Some reply
      /\ parameters (this (awaitResolver events h)) =
         parameters (set_packetDispatcher (negotiate reply (dispatcher h)) (this h)).
Proof.
  induction events as [| ev rest IH]; intros h Hpend Hdone.
  - cbn [awaitResolver] in Hdone. congruence.
  - rewrite (awaitResolver_pending ev rest h Hpend) in *.
    destruct (firstConnect_head ev) as [Hother | (p & -> & Hcmd)].
    + destruct (deliver_other ev h Hother Hpend) as (Hnf & Hpar & _).
      destruct (resolver (deliver ev h)) eqn:Hres.
      * destruct (IH (deliver ev h) Hres Hdone) as (reply & Hfirst & Hfinal).
        exists reply. split.
        -- rewrite (firstConnect_other ev rest Hother). exact Hfirst.
        -- rewrite Hfinal. unfold parameters in *.
           cbn [packetDispatcher set_packetDispatcher].
           unfold dispatcher.
           destruct (negotiate_parameters reply (packetDispatcher (this (deliver ev h))))
             as (-> & -> & ->).
           destruct (negotiate_parameters reply (packetDispatcher (this h)))
             as (-> & -> & ->).
           injection Hpar as Hm Hc Hn. rewrite Hc, Hn. reflexivity.
      * contradiction.
      * rewrite awaitResolver_settled in Hdone by congruence. congruence.
    + destruct (deliver_connect_pending p h Hcmd Hpend) as (Hres & Hdisp).
      rewrite awaitResolver_settled by congruence.
      exists p. split.
      * cbn [firstConnect]. rewrite Hcmd. reflexivity.
      * unfold parameters. rewrite Hdisp. reflexivity.
Qed.

(** A handshake that does not end fulfilled leaves the metadata and the
    parameters as they were. *)
Lemma awaitResolver_unfulfilled (events : list DispatcherEvent) :
  forall h : Handshake,
    resolver h = PromiseResolver.Pending ->
    resolver (awaitResolver events h) <> PromiseResolver.Fulfilled ->
    metadata (this (awaitResolver events h)) = metadata (this h)
    /\ parameters (this (awaitResolver events h)) = parameters (this h).
Proof.
  induction events as [| ev rest IH]; intros h Hpend Hnot.
  - split; reflexivity.
  - rewrite (awaitResolver_pending ev rest h Hpend) in *.
    destruct (firstConnect_head ev) as [Hother | (p & -> & Hcmd)].
    + destruct (deliver_other ev h Hother Hpend) as (Hnf & Hpar & Hmeta).
      destruct (resolver (deliver ev h)) eqn:Hres.
      * destruct (IH (deliver ev h) Hres Hnot) as (Hm & Hp).
        split; congruence.
      * contradiction.
      * rewrite awaitResolver_settled by congruence. split; assumption.
    + destruct (deliver_connect_pending p h Hcmd Hpend) as (Hres & _).
      rewrite awaitResolver_settled in Hnot by congruence. contradiction.
Qed.

(** ** [connect] *)

(** The state in which [connect] has sent its CONNECT packet. *)
Lemma connect_send_state (auth : AdbAuthenticationHandler.Authenticators) (a : Adb) :
  let h := fst (connect_send auth a) in
  resolver h = PromiseResolver.Pending
  /\ parameters (this h) = (0x1000%Z, true, true)
  /\ metadata (this h) = metadata a
  /\ _connected (this h) = _connected a
  /\ backend (this h) = backend a
  /\ listeners (this h) =
     (S (AdbPacketDispatcher.packetListeners (packetDispatcher a)),
      S (AdbPacketDispatcher.errorListeners (packetDispatcher a)))
  /\ disposableList h = [OnPacket; OnError]
  /\ AdbPacketDispatcher.sent (dispatcher h) =
     AdbPacketDispatcher.sent (packetDispatcher a) ++ [connectPacket]
  /\ snd (connect_send auth a) =
     AdbBackend.write (backend a)
       (AdbPacketDispatcher.sent (packetDispatcher a)) connectPacket.
Proof.
  cbv zeta. repeat split; reflexivity.
Qed.

Lemma disposeList_effect (h : Handshake) (n m : nat) :
  disposableList h = [OnPacket; OnError] ->
  listeners (this h) = (S n, S m) ->
  listeners (this (disposeList h)) = (n, m)
  /\ _connected (this (disposeList h)) = _connected (this h)
  /\ metadata (this (disposeList h)) = metadata (this h)
  /\ parameters (this (disposeList h)) = parameters (this h)
  /\ AdbPacketDispatcher.sent (packetDispatcher (this (disposeList h))) =
     AdbPacketDispatcher.sent (packetDispatcher (this h)).
Proof.
  intros Hlist Hlive. unfold disposeList. rewrite Hlist.
  unfold listeners in *. injection Hlive as Hp He.
  unfold dispatcher. cbn. rewrite Hp, He. repeat split; reflexivity.
Qed.

(** The three ways [connect] goes: the transport does not open, the CONNECT
    packet is not accepted, or the promise of the resolver is awaited. *)
Lemma connect_cases (auth : AdbAuthenticationHandler.Authenticators)
  (events : list DispatcherEvent) (a r : Adb) (outcome : PromiseResolver.t) :
  connect auth events a = (r, outcome) ->
  (exists reason,
      AdbBackend.connect (backend a) = Some (Throws reason)
      /\ r = a /\ outcome = PromiseResolver.Rejected reason)
  \/ (exists reason,
         snd (connect_send auth a) = Throws reason
         /\ r = this (fst (connect_send auth a))
         /\ outcome = PromiseResolver.Rejected reason)
  \/ (exists u,
         snd (connect_send auth a) = Returns u
         /\ connect_finish (awaitResolver events (fst (connect_send auth a))) =
            (r, outcome)).
Proof.
  unfold connect. intros Hrun.
  assert (Hgo :
            (let '(h, written) := connect_send auth a in
             match written with
             | Returns _ => connect_finish (awaitResolver events h)
             | Throws reason => (this h, PromiseResolver.Rejected reason)
             end) = (r, outcome) ->
            (exists reason,
                snd (connect_send auth a) = Throws reason
                /\ r = this (fst (connect_send auth a))
                /\ outcome = PromiseResolver.Rejected reason)
            \/ (exists u,
                   snd (connect_send auth a) = Returns u
                   /\ connect_finish
                        (awaitResolver events (fst (connect_send auth a))) =
                      (r, outcome))).
  { destruct (connect_send auth a) as [h [u | reason]]; cbn [fst snd]; intros Hgo.
    - right. exists u. split; [reflexivity | exact Hgo].
    - left. exists reason. injection Hgo as <- <-. repeat split; reflexivity. }
  destruct (AdbBackend.connect (backend a)) as [[u | reason] |].
  - right. apply Hgo. exact Hrun.
  - left. exists reason. injection Hrun as <- <-. repeat split; reflexivity.
  - right. apply Hgo. exact Hrun.
Qed.

(** A fulfilled [connect]: the first CONNECT packet fixed the parameters,
    the session is connected and the two listeners are gone. *)
Lemma connect_fulfilled (auth : AdbAuthenticationHandler.Authenticators)
  (events : list DispatcherEvent) (a r : Adb) :
  connect auth events a = (r, PromiseResolver.Fulfilled) ->
  exists reply : AdbPacket,
    firstConnect events = Some reply
    /\ parameters r =
       (Z.min maxPayloadSize (arg1 reply),
        negb (versionNoChecksum <=? Z.min version (arg0 reply))%Z,
        negb (versionNoChecksum <=? Z.min version (arg0 reply))%Z)
    /\ connected r = true
    /\ listeners r = listeners a.
Proof.
  intros Hrun.
  destruct (connect_cases auth events a r _ Hrun)
    as [(reason & _ & _ & Hout) | [(reason & _ & _ & Hout) | (u & Hsent & Hfin)]];
    try discriminate Hout.
  destruct (connect_send_state auth a)
    as (Hpend & Hpar & _ & _ & _ & Hlive & Hlist & _).
  set (h0 := fst (connect_send auth a)) in *.
  destruct (awaitResolver_wiring events h0) as (_ & _ & Hl & Hd).
  unfold connect_finish in Hfin.
  set (hF := awaitResolver events h0) in *.
  destruct (resolver hF) eqn:Hres; try discriminate Hfin.
  destruct (awaitResolver_fulfilled events h0 Hpend Hres) as (reply & Hfirst & Hneg).
  fold hF in Hneg.
  exists reply. split; [exact Hfirst |].
  pose proof (f_equal fst Hfin) as Hr. cbn [fst] in Hr. rewrite <- Hr.
  destruct (disposeList_effect
              (set_this (set_connected true (this hF)) hF)
              (AdbPacketDispatcher.packetListeners (packetDispatcher a))
              (AdbPacketDispatcher.errorListeners (packetDispatcher a)))
    as (Hl2 & Hc2 & _ & Hp2 & _).
  { cbn [disposableList set_this]. congruence. }
  { change (listeners (this (set_this (set_connected true (this hF)) hF)))
      with (listeners (this hF)). congruence. }
  split; [| split].
  - rewrite Hp2.
    change (parameters (this (set_this (set_connected true (this hF)) hF)))
      with (parameters (this hF)).
    rewrite Hneg. unfold parameters in *.
    cbn [packetDispatcher set_packetDispatcher].
    destruct (negotiate_parameters reply (dispatcher h0)) as (-> & -> & ->).
    destruct (versionNoChecksum <=? Z.min version (arg0 reply))%Z; reflexivity.
  - unfold connected. rewrite Hc2. reflexivity.
  - exact Hl2.
Qed.

(** A [connect] that is not fulfilled leaves the connected flag, the
    metadata and the backend as they were. *)
Lemma connect_unfulfilled (auth : AdbAuthenticationHandler.Authenticators)
  (events : list DispatcherEvent) (a r : Adb) (outcome : PromiseResolver.t) :
  connect auth events a = (r, outcome) ->
  outcome <> PromiseResolver.Fulfilled ->
  connected r = connected a /\ metadata r = metadata a.
Proof.
  intros Hrun Hnot.
  destruct (connect_send_state auth a)
    as (Hpend & _ & Hmeta & Hconn & _ & Hlive & Hlist & _).
  destruct (connect_cases auth events a r _ Hrun)
    as [(reason & _ & -> & _) | [(reason & _ & -> & _) | (u & Hsent & Hfin)]].
  - split; reflexivity.
  - split; assumption.
  - set (h0 := fst (connect_send auth a)) in *.
    destruct (awaitResolver_wiring events h0) as (Hc & _ & Hl & Hd).
    set (hF := awaitResolver events h0) in *.
    unfold connect_finish in Hfin.
    destruct (resolver hF) eqn:Hres;
      pose proof (f_equal fst Hfin) as Hr; pose proof (f_equal snd Hfin) as Ho;
      cbn [fst snd] in Hr, Ho; rewrite <- Hr; rewrite <- Ho in *.
    + destruct (awaitResolver_unfulfilled events h0 Hpend) as (Hm & _).
      { fold hF. congruence. }
      fold hF in Hm. unfold connected. split; congruence.
    + contradiction.
    + destruct (awaitResolver_unfulfilled events h0 Hpend) as (Hm & _).
      { fold hF. congruence. }
      fold hF in Hm.
      destruct (disposeList_effect hF
                  (AdbPacketDispatcher.packetListeners (packetDispatcher a))
                  (AdbPacketDispatcher.errorListeners (packetDispatcher a)))
        as (_ & Hc2 & Hm2 & _); [congruence | congruence |].
      unfold connected. split; congruence.
Qed.

(** Once the CONNECT packet is sent, however the promise settles, the two
    listeners of the handshake are disposed. *)
Lemma connect_settled_disposes (auth : AdbAuthenticationHandler.Authenticators)
  (events : list DispatcherEvent) (a r : Adb) (outcome : PromiseResolver.t) (u : unit) :
  snd (connect_send auth a) = Returns u ->
  (forall reason, AdbBackend.connect (backend a) <> Some (Throws reason)) ->
  connect auth events a = (r, outcome) ->
  outcome <> PromiseResolver.Pending ->
  listeners r = listeners a.
Proof.
  intros Hsent Hopen Hrun Hset.
  destruct (connect_send_state auth a)
    as (Hpend & _ & _ & _ & _ & Hlive & Hlist & _).
  destruct (connect_cases auth events a r _ Hrun)
    as [(reason & Hthrow & _) | [(reason & Hthrow & _) | (u' & _ & Hfin)]].
  - destruct (Hopen reason Hthrow).
  - congruence.
  - set (h0 := fst (connect_send auth a)) in *.
    destruct (awaitResolver_wiring events h0) as (_ & _ & Hl & Hd).
    set (hF := awaitResolver events h0) in *.
    unfold connect_finish in Hfin.
    destruct (resolver hF) eqn:Hres;
      pose proof (f_equal fst Hfin) as Hr; pose proof (f_equal snd Hfin) as Ho;
      cbn [fst snd] in Hr, Ho; rewrite <- Hr; rewrite <- Ho in *.
    + contradiction.
    + apply (disposeList_effect (set_this (set_connected true (this hF)) hF)).
      * cbn [disposableList set_this]. congruence.
      * change (listeners (this (set_this (set_connected true (this hF)) hF)))
          with (listeners (this hF)). congruence.
    + apply (disposeList_effect hF); congruence.
Qed.

(** The packets sent are only ever added to. *)
Lemma deliver_sent (ev : DispatcherEvent) (h : Handshake) :
  exists more,
    AdbPacketDispatcher.sent (dispatcher (deliver ev h)) =
    AdbPacketDispatcher.sent (dispatcher h) ++ more.
Proof.
  destruct ev as [p | reason];
    [| exists []; rewrite app_nil_r; reflexivity].
  destruct (command p) eqn:Hcmd.
  2, 4, 5, 6:
    exists []; rewrite app_nil_r;
    unfold deliver, onPacketListener, onPacket_try; cbn [packet];
    rewrite Hcmd; reflexivity.
  - unfold deliver, onPacketListener, onPacket_try. cbn [packet]. rewrite Hcmd.
    destruct (AdbAuthenticationHandler.next p (authHandler h))
      as [handler [authPacket | reason]].
    + exists [SendPacket authPacket].
      unfold AdbPacketDispatcher.sendPacket.
      destruct (AdbBackend.write (backend (this (set_authHandler handler h)))
                  (AdbPacketDispatcher.sent (dispatcher (set_authHandler handler h)))
                  (SendPacket authPacket)); reflexivity.
    + exists []. rewrite app_nil_r. reflexivity.
  - exists []. rewrite app_nil_r. rewrite (deliver_connect p h Hcmd).
    unfold dispatcher. cbn [this].
    match goal with
    | |- context [parseBanner ?b ?a] =>
        destruct (parseBanner_wiring b a) as (Hd & _)
    end.
    rewrite Hd. cbn [packetDispatcher set_packetDispatcher].
    apply negotiate_rest.
Qed.

Lemma awaitResolver_sent (events : list DispatcherEvent) :
  forall h : Handshake,
  exists more,
    AdbPacketDispatcher.sent (dispatcher (awaitResolver events h)) =
    AdbPacketDispatcher.sent (dispatcher h) ++ more.
Proof.
  induction events as [| ev rest IH]; intros h.
  - exists []. rewrite app_nil_r. reflexivity.
  - cbn [awaitResolver].
    destruct (resolver h);
      [| exists []; rewrite app_nil_r; reflexivity ..].
    destruct (IH (deliver ev h)) as (more2 & H2).
    destruct (deliver_sent ev h) as (more1 & H1).
    exists (more1 ++ more2). rewrite H2, H1, app_assoc. reflexivity.
Qed.

Lemma append_assoc (s1 s2 s3 : string) :
  ((s1 ++ s2) ++ s3 = s1 ++ (s2 ++ s3))%string.
Proof.
  induction s1 as [| c s1 IH]; cbn [append]; [reflexivity |].
  rewrite IH. reflexivity.
Qed.

(** ** The other methods *)



(** ** Runs of [connect] *)

Lemma deliver_close (p : AdbPacket) (h : Handshake) :
  command p = AdbCommand.Close -> deliver (PacketEvent p) h = h.
Proof.
  intros Hcmd. unfold deliver, onPacketListener, onPacket_try.
  cbn [packet]. rewrite Hcmd. destruct h; reflexivity.
Qed.

Lemma deliver_unexpected (p : AdbPacket) (h : Handshake) :
  command p <> AdbCommand.Connect ->
  command p <> AdbCommand.Auth ->
  command p <> AdbCommand.Close ->
  resolver h = PromiseResolver.Pending ->
  resolver (deliver (PacketEvent p) h) =
  PromiseResolver.Rejected notInCorrectState.
Proof.
  intros Hc Ha Hcl Hpend. unfold deliver, onPacketListener, onPacket_try.
  cbn [packet]. destruct (command p); try contradiction;
    cbn; rewrite Hpend; reflexivity.
Qed.

(** A CLOSE packet received while [connect] waits is not terminal: the run
    goes on as if the packet had not come. *)
Lemma connect_close_ignored (auth : AdbAuthenticationHandler.Authenticators)
  (p : AdbPacket) (rest : list DispatcherEvent) (a : Adb) :
  command p = AdbCommand.Close ->
  connect auth (PacketEvent p :: rest) a = connect auth rest a.
Proof.
  intros Hcmd. unfold connect.
  destruct (AdbBackend.connect (backend a)) as [[u | reason] |];
    try reflexivity;
    destruct (connect_send auth a) as [h [u' | reason]] eqn:Hsend;
    try reflexivity;
    (assert (Hpend : resolver h = PromiseResolver.Pending)
       by (pose proof (connect_send_state auth a) as Hst; rewrite Hsend in Hst;
           apply Hst));
    rewrite (awaitResolver_pending _ rest h Hpend);
    rewrite (deliver_close p h Hcmd); reflexivity.
Qed.

(** A packet that the handshake does not expect rejects [connect] with the
    error of the listener. *)
Lemma connect_unexpected_command (auth : AdbAuthenticationHandler.Authenticators)
  (p : AdbPacket) (rest : list DispatcherEvent) (a : Adb) (u : unit) :
  (forall reason, AdbBackend.connect (backend a) <> Some (Throws reason)) ->
  snd (connect_send auth a) = Returns u ->
  command p <> AdbCommand.Connect ->
  command p <> AdbCommand.Auth ->
  command p <> AdbCommand.Close ->
  snd (connect auth (PacketEvent p :: rest) a) =
  PromiseResolver.Rejected notInCorrectState.
Proof.
  intros Hopen Hsent Hc Ha Hcl. unfold connect.
  destruct (connect_send_state auth a) as (Hpend & _).
  assert (Hgo :
            snd (let '(h, written) := connect_send auth a in
                 match written with
                 | Returns _ =>
                     connect_finish (awaitResolver (PacketEvent p :: rest) h)
                 | Throws reason => (this h, PromiseResolver.Rejected reason)
                 end) = PromiseResolver.Rejected notInCorrectState).
  { destruct (connect_send auth a) as [h [u' | reason]]; cbn [fst snd] in *;
      [| discriminate Hsent].
    rewrite (awaitResolver_pending _ rest h Hpend).
    pose proof (deliver_unexpected p h Hc Ha Hcl Hpend) as Hrej.
    rewrite awaitResolver_settled by congruence.
    unfold connect_finish. rewrite Hrej. reflexivity. }
  destruct (AdbBackend.connect (backend a)) as [[u0 | reason] |].
  - exact Hgo.
  - destruct (Hopen reason eq_refl).
  - exact Hgo.
Qed.

(** ** Events raised while the CONNECT packet is sent *)

Lemma awaitResolver_app (pre post : list DispatcherEvent) :
  forall h : Handshake,
    awaitResolver (pre ++ post) h = awaitResolver post (awaitResolver pre h).
Proof.
  induction pre as [| ev pre IH]; intros h; [reflexivity |].
  cbn [app awaitResolver].
  destruct (resolver h) eqn:Hres.
  - apply IH.
  - rewrite awaitResolver_settled by congruence. reflexivity.
  - rewrite awaitResolver_settled by congruence. reflexivity.
Qed.

Lemma connect_finish_outcome (h : Handshake) :
  snd (connect_finish h) = resolver h.
Proof. unfold connect_finish. destruct (resolver h); reflexivity. Qed.

(** Without events during the send, [connectDuring] is [connect]. *)
Lemma connectDuring_nil (auth : AdbAuthenticationHandler.Authenticators)
  (events : list DispatcherEvent) (a : Adb) :
  connectDuring auth [] events a = connect auth events a.
Proof.
  unfold connectDuring, connect.
  destruct (AdbBackend.connect (backend a)) as [[u | reason] |];
    try reflexivity;
    destruct (connect_send auth a) as [h written]; reflexivity.
Qed.

Lemma deliverAll_cons (ev : DispatcherEvent) (rest : list DispatcherEvent)
  (h : Handshake) :
  deliverAll (ev :: rest) h = deliverAll rest (deliver ev h).
Proof. reflexivity. Qed.

Lemma deliverAll_wiring (events : list DispatcherEvent) :
  forall h : Handshake,
    _connected (this (deliverAll events h)) = _connected (this h)
    /\ backend (this (deliverAll events h)) = backend (this h)
    /\ listeners (this (deliverAll events h)) = listeners (this h)
    /\ disposableList (deliverAll events h) = disposableList h.
Proof.
  induction events as [| ev rest IH]; intros h.
  - repeat split; reflexivity.
  - rewrite deliverAll_cons.
    destruct (IH (deliver ev h)) as (Hc & Hb & Hl & Hd).
    destruct (deliver_wiring ev h) as (Hc' & Hb' & Hl' & Hd').
    repeat split; congruence.
Qed.

(** A promise that is settled stays as it is, whatever is raised. *)
Lemma deliver_settled (ev : DispatcherEvent) (h : Handshake) :
  resolver h <> PromiseResolver.Pending ->
  resolver (deliver ev h) = resolver h.
Proof.
  intros Hset.
  destruct ev as [p | reason].
  - unfold deliver, onPacketListener, onPacket_try. cbn [packet].
    destruct (command p) eqn:Hcmd.
    2, 3, 4, 5, 6:
      cbn [fst snd set_resolver set_this set_dispatcher resolver];
      destruct (resolver h); first [contradiction | reflexivity].
    destruct (AdbAuthenticationHandler.next p (authHandler h))
      as [handler [authPacket | reason]].
    + unfold AdbPacketDispatcher.sendPacket.
      destruct (AdbBackend.write (backend (this (set_authHandler handler h)))
                  (AdbPacketDispatcher.sent (dispatcher (set_authHandler handler h)))
                  (SendPacket authPacket));
        cbn [fst snd set_resolver set_dispatcher set_this set_authHandler
               resolver];
        destruct (resolver h); first [contradiction | reflexivity].
    + cbn [fst snd set_resolver set_authHandler resolver].
      destruct (resolver h); first [contradiction | reflexivity].
  - unfold deliver, onErrorListener. cbn [set_resolver resolver].
    destruct (resolver h); first [contradiction | reflexivity].
Qed.

Lemma deliverAll_settled (events : list DispatcherEvent) :
  forall h : Handshake,
    resolver h <> PromiseResolver.Pending ->
    resolver (deliverAll events h) = resolver h.
Proof.
  induction events as [| ev rest IH]; intros h Hset; [reflexivity |].
  rewrite deliverAll_cons.
  pose proof (deliver_settled ev h Hset) as Hstep.
  rewrite IH by congruence. exact Hstep.
Qed.

(** While the promise stays pending, it makes no difference whether an
    event is raised during the send or after it. *)
Lemma deliverAll_pending (events : list DispatcherEvent) :
  forall h : Handshake,
    resolver (deliverAll events h) = PromiseResolver.Pending ->
    deliverAll events h = awaitResolver events h.
Proof.
  induction events as [| ev rest IH]; intros h Hpend; [reflexivity |].
  destruct (resolver h) eqn:Hres.
  - rewrite (awaitResolver_pending ev rest h Hres), deliverAll_cons.
    apply IH. exact Hpend.
  - rewrite deliverAll_settled in Hpend by congruence. congruence.
  - rewrite deliverAll_settled in Hpend by congruence. congruence.
Qed.

(** An event other than a CONNECT packet leaves the parameters and the
    metadata as they are and fulfils no promise, settled or not. *)
Lemma deliver_not_connect (ev : DispatcherEvent) (h : Handshake) :
  firstConnect [ev] = None ->
  parameters (this (deliver ev h)) = parameters (this h)
  /\ metadata (this (deliver ev h)) = metadata (this h)
  /\ (resolver (deliver ev h) = PromiseResolver.Fulfilled ->
      resolver h = PromiseResolver.Fulfilled).
Proof.
  intros Hnot.
  destruct (resolver h) eqn:Hres.
  - destruct (deliver_other ev h Hnot Hres) as (Hnf & Hpar & Hmeta).
    repeat split; try assumption. intros Hful. contradiction.
  - repeat split; reflexivity || idtac.
    + destruct ev as [p | reason]; [| reflexivity].
      cbn [firstConnect] in Hnot.
      unfold deliver, onPacketListener, onPacket_try. cbn [packet].
      destruct (command p) eqn:Hcmd; try discriminate Hnot; try reflexivity.
      destruct (AdbAuthenticationHandler.next p (authHandler h))
        as [handler [authPacket | reason]]; [| reflexivity].
      unfold AdbPacketDispatcher.sendPacket.
      destruct (AdbBackend.write (backend (this (set_authHandler handler h)))
                  (AdbPacketDispatcher.sent (dispatcher (set_authHandler handler h)))
                  (SendPacket authPacket)); reflexivity.
    + destruct ev as [p | reason]; [| reflexivity].
      cbn [firstConnect] in Hnot.
      unfold deliver, onPacketListener, onPacket_try. cbn [packet].
      destruct (command p) eqn:Hcmd; try discriminate Hnot; try reflexivity.
      destruct (AdbAuthenticationHandler.next p (authHandler h))
        as [handler [authPacket | reason]]; [| reflexivity].
      unfold AdbPacketDispatcher.sendPacket.
      destruct (AdbBackend.write (backend (this (set_authHandler handler h)))
                  (AdbPacketDispatcher.sent (dispatcher (set_authHandler handler h)))
                  (SendPacket authPacket)); reflexivity.
  - repeat split.
    + destruct ev as [p | reason']; [| reflexivity].
      cbn [firstConnect] in Hnot.
      unfold deliver, onPacketListener, onPacket_try. cbn [packet].
      destruct (command p) eqn:Hcmd; try discriminate Hnot; try reflexivity.
      destruct (AdbAuthenticationHandler.next p (authHandler h))
        as [handler [authPacket | reason']]; [| reflexivity].
      unfold AdbPacketDispatcher.sendPacket.
      destruct (AdbBackend.write (backend (this (set_authHandler handler h)))
                  (AdbPacketDispatcher.sent (dispatcher (set_authHandler handler h)))
                  (SendPacket authPacket)); reflexivity.
    + destruct ev as [p | reason']; [| reflexivity].
      cbn [firstConnect] in Hnot.
      unfold deliver, onPacketListener, onPacket_try. cbn [packet].
      destruct (command p) eqn:Hcmd; try discriminate Hnot; try reflexivity.
      destruct (AdbAuthenticationHandler.next p (authHandler h))
        as [handler [authPacket | reason']]; [| reflexivity].
      unfold AdbPacketDispatcher.sendPacket.
      destruct (AdbBackend.write (backend (this (set_authHandler handler h)))
                  (AdbPacketDispatcher.sent (dispatcher (set_authHandler handler h)))
                  (SendPacket authPacket)); reflexivity.
    + rewrite deliver_settled by congruence. congruence.
Qed.

Lemma firstConnect_cons_none (ev : DispatcherEvent) (rest : list DispatcherEvent) :
  firstConnect (ev :: rest) = None ->
  firstConnect [ev] = None /\ firstConnect rest = None.
Proof.
  intros Hnone.
  destruct (firstConnect_head ev) as [Hother | (p & -> & Hcmd)].
  - split; [exact Hother |].
    rewrite (firstConnect_other ev rest Hother) in Hnone. exact Hnone.
  - cbn [firstConnect] in Hnone. rewrite Hcmd in Hnone. discriminate Hnone.
Qed.


Lemma deliverAll_not_connect (events : list DispatcherEvent) :
  forall h : Handshake,
    firstConnect events = None ->
    parameters (this (deliverAll events h)) = parameters (this h)
    /\ metadata (this (deliverAll events h)) = metadata (this h)
    /\ (resolver (deliverAll events h) = PromiseResolver.Fulfilled ->
        resolver h = PromiseResolver.Fulfilled).
Proof.
  induction events as [| ev rest IH]; intros h Hnone.
  - repeat split; try reflexivity. intros H; exact H.
  - destruct (firstConnect_cons_none ev rest Hnone) as (Hhead & Hrest).
    rewrite deliverAll_cons.
    destruct (IH (deliver ev h) Hrest) as (Hp & Hm & Hf).
    destruct (deliver_not_connect ev h Hhead) as (Hp' & Hm' & Hf').
    split; [congruence | split; [congruence |]].
    intros Hful. apply Hf', Hf, Hful.
Qed.

(** The state in which [connect] waits or has stopped waiting: wherever it
    is, both listeners are in place and the session has the backend and the
    connected flag it had. *)
Lemma handshake_wiring (auth : AdbAuthenticationHandler.Authenticators)
  (inflight events : list DispatcherEvent) (a : Adb) :
  let h := awaitResolver events
             (deliverAll inflight (fst (connect_send auth a))) in
  _connected (this h) = _connected a
  /\ backend (this h) = backend a
  /\ listeners (this h) =
     (S (AdbPacketDispatcher.packetListeners (packetDispatcher a)),
      S (AdbPacketDispatcher.errorListeners (packetDispatcher a)))
  /\ disposableList h = [OnPacket; OnError].
Proof.
  cbv zeta.
  destruct (connect_send_state auth a)
    as (_ & _ & _ & Hconn & Hback & Hlive & Hlist & _).
  destruct (deliverAll_wiring inflight (fst (connect_send auth a)))
    as (Hc & Hb & Hl & Hd).
  destruct (awaitResolver_wiring events
              (deliverAll inflight (fst (connect_send auth a))))
    as (Hc' & Hb' & Hl' & Hd').
  repeat split; congruence.
Qed.

(** What the [try] and [finally] leave of a handshake with both listeners
    in place: the listeners apart, the session of the handshake, connected
    when the promise is fulfilled. *)
Lemma connect_finish_effect (h : Handshake) (n m : nat) :
  disposableList h = [OnPacket; OnError] ->
  listeners (this h) = (S n, S m) ->
  metadata (fst (connect_finish h)) = metadata (this h)
  /\ parameters (fst (connect_finish h)) = parameters (this h)
  /\ AdbPacketDispatcher.sent (packetDispatcher (fst (connect_finish h))) =
     AdbPacketDispatcher.sent (dispatcher h)
  /\ (resolver h <> PromiseResolver.Fulfilled ->
      connected (fst (connect_finish h)) = _connected (this h)).
Proof.
  intros Hlist Hlive. unfold connect_finish.
  destruct (resolver h) eqn:Hres; cbn [fst].
  - repeat split; reflexivity.
  - destruct (disposeList_effect (set_this (set_connected true (this h)) h) n m)
      as (_ & _ & Hm & Hp & Hs).
    { cbn [disposableList set_this]. exact Hlist. }
    { change (listeners (this (set_this (set_connected true (this h)) h)))
        with (listeners (this h)). exact Hlive. }
    rewrite Hm, Hp, Hs.
    split; [reflexivity | split; [reflexivity | split; [reflexivity |]]].
    intros Hnot. contradiction.
  - destruct (disposeList_effect h n m Hlist Hlive) as (_ & Hc & Hm & Hp & Hs).
    rewrite Hm, Hp, Hs. unfold connected. rewrite Hc.
    repeat split; reflexivity.
Qed.

(** The three ways [connectDuring] goes, as for [connect]. *)
Lemma connectDuring_cases (auth : AdbAuthenticationHandler.Authenticators)
  (inflight events : list DispatcherEvent) (a r : Adb)
  (outcome : PromiseResolver.t) :
  connectDuring auth inflight events a = (r, outcome) ->
  (exists reason,
      AdbBackend.connect (backend a) = Some (Throws reason)
      /\ r = a /\ outcome = PromiseResolver.Rejected reason)
  \/ (exists reason,
         snd (connect_send auth a) = Throws reason
         /\ r = this (deliverAll inflight (fst (connect_send auth a)))
         /\ outcome = PromiseResolver.Rejected reason)
  \/ (exists u,
         snd (connect_send auth a) = Returns u
         /\ connect_finish
              (awaitResolver events
                 (deliverAll inflight (fst (connect_send auth a)))) =
            (r, outcome)).
Proof.
  unfold connectDuring. intros Hrun.
  assert (Hgo :
            (let '(h, written) := connect_send auth a in
             let h := deliverAll inflight h in
             match written with
             | Returns _ => connect_finish (awaitResolver events h)
             | Throws reason => (this h, PromiseResolver.Rejected reason)
             end) = (r, outcome) ->
            (exists reason,
                snd (connect_send auth a) = Throws reason
                /\ r = this (deliverAll inflight (fst (connect_send auth a)))
                /\ outcome = PromiseResolver.Rejected reason)
            \/ (exists u,
                   snd (connect_send auth a) = Returns u
                   /\ connect_finish
                        (awaitResolver events
                           (deliverAll inflight (fst (connect_send auth a)))) =
                      (r, outcome))).
  { destruct (connect_send auth a) as [h [u | reason]]; cbn [fst snd]; cbv zeta;
      intros Hgo.
    - right. exists u. split; [reflexivity | exact Hgo].
    - left. exists reason.
      pose proof (f_equal fst Hgo) as Hr. pose proof (f_equal snd Hgo) as Ho.
      cbn [fst snd] in Hr, Ho. repeat split; congruence. }
  destruct (AdbBackend.connect (backend a)) as [[u | reason] |].
  - right. apply Hgo. exact Hrun.
  - left. exists reason.
    pose proof (f_equal fst Hrun) as Hr. pose proof (f_equal snd Hrun) as Ho.
    cbn [fst snd] in Hr, Ho. repeat split; congruence.
  - right. apply Hgo. exact Hrun.
Qed.

(** When the CONNECT packet is accepted and the promise is still pending as
    the send returns, the events raised during the send count as events
    raised after it. *)
Lemma connectDuring_as_connect (auth : AdbAuthenticationHandler.Authenticators)
  (inflight events : list DispatcherEvent) (a : Adb) (u : unit) :
  snd (connect_send auth a) = Returns u ->
  resolver (deliverAll inflight (fst (connect_send auth a))) =
    PromiseResolver.Pending ->
  connectDuring auth inflight events a = connect auth (inflight ++ events) a.
Proof.
  intros Hsent Hpend. unfold connectDuring, connect.
  destruct (AdbBackend.connect (backend a)) as [[u0 | reason] |];
    try reflexivity;
    destruct (connect_send auth a) as [h [u' | reason]];
    cbn [fst snd] in Hpend, Hsent; try discriminate Hsent; cbv zeta;
    rewrite awaitResolver_app, (deliverAll_pending inflight h Hpend);
    reflexivity.
Qed.


(** A run that is not fulfilled and saw no CONNECT packet during the send
    leaves the connected flag and the metadata as they were and, once the
    transport is open, the parameters as [connect] set them at its start. *)
Lemma connectDuring_unfulfilled (auth : AdbAuthenticationHandler.Authenticators)
  (inflight events : list DispatcherEvent) (a r : Adb)
  (outcome : PromiseResolver.t) :
  firstConnect inflight = None ->
  connectDuring auth inflight events a = (r, outcome) ->
  outcome <> PromiseResolver.Fulfilled ->
  connected r = connected a
  /\ metadata r = metadata a
  /\ ((forall reason, AdbBackend.connect (backend a) <> Some (Throws reason)) ->
      parameters r = (0x1000%Z, true, true)).
Proof.
  intros Hnone Hrun Hnot.
  destruct (connect_send_state auth a)
    as (Hpend & Hpar & Hmeta & Hconn & _).
  set (h0 := fst (connect_send auth a)) in *.
  destruct (deliverAll_not_connect inflight h0 Hnone) as (HpI & HmI & HfI).
  destruct (deliverAll_wiring inflight h0) as (HcI & _).
  destruct (connectDuring_cases auth inflight events a r _ Hrun)
    as [(reason & Hthrow & -> & _) | [(reason & _ & -> & _) | (u & _ & Hfin)]].
  - split; [reflexivity | split; [reflexivity |]].
    intros Hopen. destruct (Hopen reason Hthrow).
  - fold h0. unfold connected.
    split; [congruence | split; [congruence |]]. intros _. congruence.
  - fold h0 in Hfin.
    set (hI := deliverAll inflight h0) in *.
    set (hF := awaitResolver events hI) in *.
    destruct (handshake_wiring auth inflight events a) as (Hc & _ & Hl & Hd).
    fold h0 hI hF in Hc, Hl, Hd.
    assert (Hres : resolver hF = outcome).
    { rewrite <- connect_finish_outcome, Hfin. reflexivity. }
    assert (Hsame : metadata (this hF) = metadata (this hI)
                    /\ parameters (this hF) = parameters (this hI)).
    { destruct (resolver hI) eqn:HresI.
      - apply (awaitResolver_unfulfilled events hI HresI).
        fold hF. congruence.
      - specialize (HfI eq_refl). congruence.
      - unfold hF. rewrite awaitResolver_settled by congruence.
        split; reflexivity. }
    destruct Hsame as (HmF & HpF).
    destruct (connect_finish_effect hF _ _ Hd Hl) as (Hm & Hp & _ & Hk).
    rewrite Hfin in Hm, Hp, Hk. cbn [fst] in Hm, Hp, Hk.
    split; [| split].
    + rewrite Hk by congruence. unfold connected. congruence.
    + congruence.
    + intros _. congruence.
Qed.


(** * The claims *)


(** C2: processing the peer's CONNECT reply sets the dispatcher's
    maxPayloadSize to the minimum of the local maximum (0x100000, the value
    advertised in the outgoing CONNECT packet) and the reply's arg1; and
    after every [connect] that completes, maxPayloadSize is that minimum for
    the first CONNECT packet received. *)
Theorem connect_negotiates_maxPayloadSize :
  (forall (e : PacketEventArgs) (h : Handshake),
      command (packet e) = AdbCommand.Connect ->
      AdbPacketDispatcher.maxPayloadSize (dispatcher (snd (onPacketListener e h))) =
      Z.min 0x100000 (arg1 (packet e)))
  /\ (forall (auth : AdbAuthenticationHandler.Authenticators)
            (events : list DispatcherEvent) (a r : Adb),
        connect auth events a = (r, PromiseResolver.Fulfilled) ->
        exists reply : AdbPacket,
          firstConnect events = Some reply
          /\ AdbPacketDispatcher.maxPayloadSize (packetDispatcher r) =
             Z.min maxPayloadSize (arg1 reply))
  /\ connectPacket =
     SendCommand AdbCommand.Connect version maxPayloadSize
       ("host::features=" ++ features_csv ++ ";" ++ NUL)
  /\ maxPayloadSize = 0x100000%Z.
Proof.
  split; [| split; [| split; reflexivity]].
  - intros e h Hcmd.
    change (snd (onPacketListener e h)) with (deliver (PacketEvent (packet e)) h).
    rewrite (deliver_connect (packet e) h Hcmd). unfold dispatcher. cbn [this].
    match goal with
    | |- context [parseBanner ?b ?a] =>
        destruct (parseBanner_wiring b a) as (Hd & _)
    end.
    rewrite Hd. cbn [packetDispatcher set_packetDispatcher].
    apply negotiate_parameters.
  - intros auth events a r Hrun.
    destruct (connect_fulfilled auth events a r Hrun) as (reply & Hfirst & Hpar & _).
    exists reply. split; [exact Hfirst |].
    unfold parameters in Hpar. congruence.
Qed.

(** C3: for every protocol version that the peer gives in arg0 of its
    CONNECT reply: the CONNECT case of the listener turns checksum
    calculation and the null terminator of service strings off when
    min(version, arg0) is at least versionNoChecksum and leaves both alone
    otherwise; so after a [connect] that completes both are off in the
    first case and both are on, as [connect] set them at its start, in the
    second. *)
Theorem connect_negotiates_checksum :
  (forall (e : PacketEventArgs) (h : Handshake),
      command (packet e) = AdbCommand.Connect ->
      let d := dispatcher h in
      let d' := dispatcher (snd (onPacketListener e h)) in
      if (versionNoChecksum <=? Z.min version (arg0 (packet e)))%Z
      then
        AdbPacketDispatcher.calculateChecksum d' = false
        /\ AdbPacketDispatcher.appendNullToServiceString d' = false
      else
        AdbPacketDispatcher.calculateChecksum d' =
          AdbPacketDispatcher.calculateChecksum d
        /\ AdbPacketDispatcher.appendNullToServiceString d' =
           AdbPacketDispatcher.appendNullToServiceString d)
  /\ (forall (auth : AdbAuthenticationHandler.Authenticators)
            (events : list DispatcherEvent) (a r : Adb),
        connect auth events a = (r, PromiseResolver.Fulfilled) ->
        exists reply : AdbPacket,
          firstConnect events = Some reply
          /\ if (versionNoChecksum <=? Z.min version (arg0 reply))%Z
             then
               AdbPacketDispatcher.calculateChecksum (packetDispatcher r) = false
               /\ AdbPacketDispatcher.appendNullToServiceString
                    (packetDispatcher r) = false
             else
               AdbPacketDispatcher.calculateChecksum (packetDispatcher r) = true
               /\ AdbPacketDispatcher.appendNullToServiceString
                    (packetDispatcher r) = true).
Proof.
  split.
  - intros e h Hcmd. cbv zeta.
    change (snd (onPacketListener e h)) with (deliver (PacketEvent (packet e)) h).
    rewrite (deliver_connect (packet e) h Hcmd). unfold dispatcher. cbn [this].
    match goal with
    | |- context [parseBanner ?b ?a] =>
        destruct (parseBanner_wiring b a) as (Hd & _)
    end.
    rewrite Hd. cbn [packetDispatcher set_packetDispatcher].
    destruct (negotiate_parameters (packet e) (packetDispatcher (this h)))
      as (_ & Hc & Hn).
    rewrite Hc, Hn.
    destruct (versionNoChecksum <=? Z.min version (arg0 (packet e)))%Z;
      split; reflexivity.
  - intros auth events a r Hrun.
    destruct (connect_fulfilled auth events a r Hrun) as (reply & Hfirst & Hpar & _).
    exists reply. split; [exact Hfirst |].
    unfold parameters in Hpar.
    destruct (versionNoChecksum <=? Z.min version (arg0 reply))%Z;
      cbn [negb] in Hpar; split; congruence.
Qed.

(** C4: the banner
    "device::ro.product.name=widget;ro.product.model=X1;features=shell_v2,cmd;"
    gives product "widget", model "X1" and the features shell_v2 and cmd;
    and in every banner an entry without '=' (such as "badentry") is
    skipped: the entry leaves the session as it is, the banner parses as if
    the entry were not there, and [parseBanner] has no failing path. *)
Theorem parseBanner_sample_and_malformed_entries :
  (forall a : Adb,
      let r :=
        parseBanner
          "device::ro.product.name=widget;ro.product.model=X1;features=shell_v2,cmd;"
          a in
      product r = Some "widget"
      /\ model r = Some "X1"
      /\ features r = Some ["shell_v2"; "cmd"])
  /\ (forall (a : Adb) (prop : string),
        ~ JsString.occurs "="%char prop -> parseProp a prop = a)
  /\ (forall (banner : string) (a : Adb) (before after : list string)
             (prop : string),
        banner_entries banner = before ++ prop :: after ->
        ~ JsString.occurs "="%char prop ->
        parseBanner banner a =
        fold_left parseProp (before ++ after) (set_features (Some []) a))
  /\ (forall a : Adb,
        parseBanner
          "device::ro.product.name=widget;badentry;ro.product.model=X1;features=shell_v2,cmd;"
          a =
        parseBanner
          "device::ro.product.name=widget;ro.product.model=X1;features=shell_v2,cmd;"
          a).
Proof.
  split; [| split; [| split]].
  - intros a. cbv zeta. repeat split; reflexivity.
  - exact parseProp_without_equals.
  - intros banner a before after prop Hentries Hno.
    rewrite parseBanner_entries, Hentries.
    apply fold_parseProp_skip. exact Hno.
  - intros a. reflexivity.
Qed.

(** C5, as the code has it: once [connect] has sent its CONNECT packet, and
    for as long as no reply completes the handshake, checksum calculation
    and the null terminator are on and maxPayloadSize is 0x1000, which is
    below the local maximum 0x100000 that the CONNECT packet advertises. *)
Theorem connect_initial_parameters
  (auth : AdbAuthenticationHandler.Authenticators) (a : Adb) :
  (let d := dispatcher (fst (connect_send auth a)) in
   AdbPacketDispatcher.calculateChecksum d = true
   /\ AdbPacketDispatcher.appendNullToServiceString d = true
   /\ AdbPacketDispatcher.maxPayloadSize d = 0x1000%Z
   /\ last (AdbPacketDispatcher.sent d) connectPacket =
      SendCommand AdbCommand.Connect 0x01000001 0x100000
        ("host::features=" ++ features_csv ++ ";" ++ NUL))
  /\ (0x1000 < maxPayloadSize)%Z
  /\ (forall (events : list DispatcherEvent) (r : Adb),
        (forall reason, AdbBackend.connect (backend a) <> Some (Throws reason)) ->
        connect auth events a = (r, PromiseResolver.Pending) ->
        parameters r = (0x1000%Z, true, true)).
Proof.
  split; [| split].
  - cbv zeta.
    destruct (connect_send_state auth a) as (_ & Hpar & _ & _ & _ & _ & _ & Hsent & _).
    rewrite Hsent, last_last. unfold parameters in Hpar. unfold dispatcher.
    repeat split; congruence.
  - reflexivity.
  - intros events r Hopen Hrun.
    destruct (connect_send_state auth a) as (Hpend & Hpar & _).
    destruct (connect_cases auth events a r _ Hrun)
      as [(reason & _ & _ & Hout) | [(reason & _ & _ & Hout) | (u & _ & Hfin)]];
      try discriminate Hout.
    set (h0 := fst (connect_send auth a)) in *.
    unfold connect_finish in Hfin.
    destruct (resolver (awaitResolver events h0)) eqn:Hres;
      pose proof (f_equal fst Hfin) as Hr; pose proof (f_equal snd Hfin) as Ho;
      cbn [fst snd] in Hr, Ho; try discriminate Ho.
    rewrite <- Hr.
    destruct (awaitResolver_unfulfilled events h0 Hpend) as (_ & Hp); congruence.
Qed.

(** When the transport refuses the CONNECT packet, [connect] is rejected
    with the two listeners of the handshake still subscribed. *)
Lemma connect_send_failure (auth : AdbAuthenticationHandler.Authenticators)
  (events : list DispatcherEvent) (a : Adb) (reason : Exception) :
  (forall e, AdbBackend.connect (backend a) <> Some (Throws e)) ->
  AdbBackend.write (backend a) (AdbPacketDispatcher.sent (packetDispatcher a))
    connectPacket = Throws reason ->
  snd (connect auth events a) = PromiseResolver.Rejected reason
  /\ connected (fst (connect auth events a)) = connected a
  /\ listeners (fst (connect auth events a)) =
     (S (AdbPacketDispatcher.packetListeners (packetDispatcher a)),
      S (AdbPacketDispatcher.errorListeners (packetDispatcher a))).
Proof.
  intros Hopen Hwrite.
  destruct (connect_send_state auth a)
    as (_ & _ & _ & Hconn & _ & Hlive & _ & _ & Hsnd).
  destruct (connect auth events a) as [r outcome] eqn:Hrun.
  destruct (connect_cases auth events a r _ Hrun)
    as [(e & He & _) | [(e & He & -> & ->) | (u & Hu & _)]].
  - destruct (Hopen e He).
  - cbn [fst snd]. repeat split; congruence.
  - congruence.
Qed.

(** C6, on the transport that refuses every write: [connect] is rejected
    with the transport's error and the session is still not connected, but
    the packet listener and the error listener of the handshake, which were
    not there before, are both still subscribed. *)
Theorem connect_send_failure_keeps_listeners
  (auth : AdbAuthenticationHandler.Authenticators)
  (events : list DispatcherEvent) :
  snd (connect auth events brokenAdb) =
    PromiseResolver.Rejected (Error "transfer failed")
  /\ connected (fst (connect auth events brokenAdb)) = false
  /\ listeners brokenAdb = (0, 0)
  /\ listeners (fst (connect auth events brokenAdb)) = (1, 1).
Proof.
  repeat split; reflexivity.
Qed.

(** C7, as the code has it: the first packet that [connect] sends is a
    CONNECT packet with the local version 0x01000001, the local maximum
    payload size 0x100000 and the service string host::features= followed
    by the sixteen feature tokens joined by commas, a semicolon and a null
    character. The tokens are written with underscores; the third is the
    value of [AdbFeatures.StatV2]. *)
Theorem connect_sends_connect_packet
  (auth : AdbAuthenticationHandler.Authenticators) (a : Adb) :
  connectPacket =
    SendCommand AdbCommand.Connect 0x01000001 0x100000
      ("host::features=shell_v2,cmd," ++ StatV2
       ++ ",ls_v2,fixed_push_mkdir,apex,abb,fixed_push_symlink_timestamp,abb_exec,remount_shell,track_app,sendrecv_v2,sendrecv_v2_brotli,sendrecv_v2_lz4,sendrecv_v2_zstd,sendrecv_v2_dry_run_send;"
       ++ String (ascii_of_nat 0) EmptyString)
  /\ AdbPacketDispatcher.sent (dispatcher (fst (connect_send auth a))) =
     AdbPacketDispatcher.sent (packetDispatcher a) ++ [connectPacket]
  /\ (forall (events : list DispatcherEvent),
        (forall reason, AdbBackend.connect (backend a) <> Some (Throws reason)) ->
        exists more,
          AdbPacketDispatcher.sent (packetDispatcher (fst (connect auth events a))) =
          AdbPacketDispatcher.sent (packetDispatcher a) ++ connectPacket :: more).
Proof.
  split; [| split].
  - unfold connectPacket, features_csv, features_list, JsString.join, NUL,
      version, maxPayloadSize.
    f_equal. cbn [String.concat append]. rewrite !append_assoc.
    cbn [append]. reflexivity.
  - apply connect_send_state.
  - intros events Hopen.
    destruct (connect_send_state auth a)
      as (_ & _ & _ & _ & _ & Hlive & Hlist & Hsent & _).
    destruct (connect auth events a) as [r outcome] eqn:Hrun. cbn [fst].
    destruct (connect_cases auth events a r _ Hrun)
      as [(e & He & _) | [(e & He & -> & ->) | (u & Hu & Hfin)]].
    + destruct (Hopen e He).
    + exists []. exact Hsent.
    + set (h0 := fst (connect_send auth a)) in *.
      destruct (awaitResolver_sent events h0) as (more & Hmore).
      destruct (awaitResolver_wiring events h0) as (_ & _ & Hl & Hd).
      set (hF := awaitResolver events h0) in *.
      exists more.
      rewrite Hsent, <- app_assoc in Hmore. cbn [app] in Hmore.
      unfold dispatcher in *.
      unfold connect_finish in Hfin.
      destruct (resolver hF) eqn:Hres;
        pose proof (f_equal fst Hfin) as Hr; cbn [fst] in Hr; rewrite <- Hr.
      * exact Hmore.
      * rewrite <- Hmore.
        apply (disposeList_effect (set_this (set_connected true (this hF)) hF)
                 (AdbPacketDispatcher.packetListeners (packetDispatcher a))
                 (AdbPacketDispatcher.errorListeners (packetDispatcher a))).
        -- cbn [disposableList set_this]. congruence.
        -- change (listeners (this (set_this (set_connected true (this hF)) hF)))
             with (listeners (this hF)). congruence.
      * rewrite <- Hmore.
        apply (disposeList_effect hF
                 (AdbPacketDispatcher.packetListeners (packetDispatcher a))
                 (AdbPacketDispatcher.errorListeners (packetDispatcher a)));
          congruence.
Qed.


(** C9: [parseBanner] first resets the features to the empty list, so they
    are a defined list after any banner, and so after any CONNECT reply:
    the empty list when the banner has no '::' section or no features entry,
    otherwise the split of the last features entry. Product, model and
    device hold the last value that an entry of the banner gives to their
    key, and their previous value when no entry has the key. *)
Theorem parseBanner_resets_features_keeps_others (banner : string) (a : Adb) :
  let r := parseBanner banner a in
  features r =
    Some (last (map (JsString.split ",")
                  (banner_values AdbPropKey.Features banner)) [])
  /\ (banner_values AdbPropKey.Features banner = [] -> features r = Some [])
  /\ (List.length (JsString.split "::" banner) <= 1 ->
      features r = Some [] /\ product r = product a
      /\ model r = model a /\ device r = device a)
  /\ product r = last (map Some (banner_values AdbPropKey.Product banner)) (product a)
  /\ model r = last (map Some (banner_values AdbPropKey.Model banner)) (model a)
  /\ device r = last (map Some (banner_values AdbPropKey.Device banner)) (device a)
  /\ (banner_values AdbPropKey.Product banner = [] -> product r = product a)
  /\ (banner_values AdbPropKey.Model banner = [] -> model r = model a)
  /\ (banner_values AdbPropKey.Device banner = [] -> device r = device a)
  /\ (forall (p : AdbPacket) (h : Handshake),
        command p = AdbCommand.Connect ->
        exists l : list string,
          features
            (this (snd (onPacketListener {| handled := false; packet := p |} h))) =
          Some l).
Proof.
  cbv zeta. unfold banner_values. rewrite parseBanner_entries.
  assert (Hf : features (fold_left parseProp (banner_entries banner)
                           (set_features (Some []) a)) =
               Some (last (map (JsString.split ",")
                             (entry_values AdbPropKey.Features
                                (banner_entries banner))) []))
    by (apply fold_parseProp_features; reflexivity).
  assert (Hp := fold_parseProp_last product AdbPropKey.Product parseProp_product
                  (banner_entries banner) (set_features (Some []) a)).
  assert (Hm := fold_parseProp_last model AdbPropKey.Model parseProp_model
                  (banner_entries banner) (set_features (Some []) a)).
  assert (Hd := fold_parseProp_last device AdbPropKey.Device parseProp_device
                  (banner_entries banner) (set_features (Some []) a)).
  change (product (set_features (Some []) a)) with (product a) in Hp.
  change (model (set_features (Some []) a)) with (model a) in Hm.
  change (device (set_features (Some []) a)) with (device a) in Hd.
  split; [exact Hf |].
  split; [intros Hnone; rewrite Hf, Hnone; reflexivity |].
  split.
  { intros Hlen. rewrite (banner_entries_no_section banner Hlen).
    repeat split; reflexivity. }
  split; [exact Hp |].
  split; [exact Hm |].
  split; [exact Hd |].
  split; [intros Hnone; rewrite Hp, Hnone; reflexivity |].
  split; [intros Hnone; rewrite Hm, Hnone; reflexivity |].
  split; [intros Hnone; rewrite Hd, Hnone; reflexivity |].
  intros p h Hcmd.
  change (snd (onPacketListener {| handled := false; packet := p |} h))
    with (deliver (PacketEvent p) h).
  rewrite (deliver_connect p h Hcmd). cbn [this].
  rewrite parseBanner_entries. eexists.
  apply fold_parseProp_features. reflexivity.
Qed.

(** C10: [dispose] leaves the connected flag as it is, so a session whose
    [connect] completed still reports connected after it is disposed. *)
Theorem dispose_keeps_connected :
  (forall a : Adb, connected (fst (dispose a)) = connected a)
  /\ (forall (auth : AdbAuthenticationHandler.Authenticators)
            (events : list DispatcherEvent) (a r : Adb),
        connect auth events a = (r, PromiseResolver.Fulfilled) ->
        connected r = true /\ connected (fst (dispose r)) = true).
Proof.
  split.
  - intros a. reflexivity.
  - intros auth events a r Hrun.
    destruct (connect_fulfilled auth events a r Hrun) as (reply & _ & _ & Hconn & _).
    split; [exact Hconn |].
    change (connected (fst (dispose r))) with (connected r). exact Hconn.
Qed.

(** * Further properties of the session *)

(** ** More on [connect] *)

(** [connect] looks at events only until its promise settles. *)
Lemma connect_ignores_events_after_settling
  (auth : AdbAuthenticationHandler.Authenticators)
  (pre post : list DispatcherEvent) (a : Adb) :
  snd (connect auth pre a) <> PromiseResolver.Pending ->
  connect auth (pre ++ post) a = connect auth pre a.
Proof.
  unfold connect.
  destruct (AdbBackend.connect (backend a)) as [[u | reason] |];
    try reflexivity;
    destruct (connect_send auth a) as [h [u' | reason]];
    try reflexivity;
    rewrite connect_finish_outcome; intros Hset;
    rewrite awaitResolver_app, (awaitResolver_settled post _ Hset);
    reflexivity.
Qed.

(** X6: on a session that is not connected, the connected accessor is true
    after [connect] exactly when the call was fulfilled. *)
Theorem connected_iff_fulfilled
  (auth : AdbAuthenticationHandler.Authenticators)
  (events : list DispatcherEvent) (a : Adb) :
  connected a = false ->
  (connected (fst (connect auth events a)) = true
   <-> snd (connect auth events a) = PromiseResolver.Fulfilled).
Proof.
  intros Hnot.
  destruct (connect auth events a) as [r outcome] eqn:Hrun. cbn [fst snd].
  split.
  - intros Hconn.
    destruct outcome as [| | reason]; [| reflexivity |];
      (destruct (connect_unfulfilled auth events a r _ Hrun) as (Hsame & _);
       [discriminate | congruence]).
  - intros ->.
    destruct (connect_fulfilled auth events a r Hrun) as (_ & _ & _ & Hconn & _).
    exact Hconn.
Qed.

(** X7: when the transport opens and no CONNECT packet is raised while the
    send of the CONNECT packet is awaited, a [connect] that is not
    fulfilled (rejected by the send, by the authentication, by an
    unexpected command or by an error of the dispatcher, or still waiting)
    leaves the dispatcher with the parameters set at its start, 0x1000 with
    checksum and null terminator on, and not with what an earlier handshake
    had negotiated. *)
Theorem unfulfilled_connect_resets_parameters
  (auth : AdbAuthenticationHandler.Authenticators)
  (inflight events : list DispatcherEvent) (a : Adb) :
  (forall reason, AdbBackend.connect (backend a) <> Some (Throws reason)) ->
  firstConnect inflight = None ->
  snd (connectDuring auth inflight events a) <> PromiseResolver.Fulfilled ->
  parameters (fst (connectDuring auth inflight events a)) = (0x1000%Z, true, true).
Proof.
  intros Hopen Hnone Hnot.
  destruct (connectDuring auth inflight events a) as [r outcome] eqn:Hrun.
  cbn [fst snd] in *.
  destruct (connectDuring_unfulfilled auth inflight events a r outcome
              Hnone Hrun Hnot) as (_ & _ & Hpar).
  apply Hpar. exact Hopen.
Qed.

(** X8: when the transport opens and accepts the CONNECT packet, every
    [connect] that returns, fulfilled or rejected, has removed the packet
    listener and the error listener it subscribed: the dispatcher has the
    listeners it had before the call. *)
Theorem connect_releases_listeners_once_sent
  (auth : AdbAuthenticationHandler.Authenticators)
  (events : list DispatcherEvent) (a : Adb) (u : unit) :
  (forall reason, AdbBackend.connect (backend a) <> Some (Throws reason)) ->
  AdbBackend.write (backend a) (AdbPacketDispatcher.sent (packetDispatcher a))
    connectPacket = Returns u ->
  snd (connect auth events a) <> PromiseResolver.Pending ->
  listeners (fst (connect auth events a)) = listeners a.
Proof.
  intros Hopen Hwrite Hset.
  destruct (connect_send_state auth a) as (_ & _ & _ & _ & _ & _ & _ & _ & Hsnd).
  destruct (connect auth events a) as [r outcome] eqn:Hrun. cbn [fst snd] in *.
  apply (connect_settled_disposes auth events a r outcome u);
    [congruence | exact Hopen | exact Hrun | exact Hset].
Qed.

(** The packets that a handshake sends until it is fulfilled: one answer
    for each AUTH packet before the CONNECT reply, in order. *)
Lemma awaitResolver_sent_exact (events : list DispatcherEvent) :
  forall h : Handshake,
    resolver h = PromiseResolver.Pending ->
    resolver (awaitResolver events h) = PromiseResolver.Fulfilled ->
    AdbPacketDispatcher.sent (dispatcher (awaitResolver events h)) =
    AdbPacketDispatcher.sent (dispatcher h)
    ++ map SendPacket
         (answersTo (AdbAuthenticationHandler.authenticators (authHandler h))
            (AdbAuthenticationHandler.received (authHandler h))
            (challengesBefore events)).
Proof.
  induction events as [| ev rest IH]; intros h Hpend Hdone.
  - cbn [awaitResolver] in Hdone. congruence.
  - rewrite (awaitResolver_pending ev rest h Hpend) in *.
    destruct ev as [p | reason].
    + destruct (command p) eqn:Hcmd.
      * (* AUTH *)
        cbn [challengesBefore]. rewrite Hcmd. cbn [answersTo].
        unfold deliver, onPacketListener, onPacket_try in *.
        cbn [packet] in *. rewrite Hcmd in *.
        unfold AdbAuthenticationHandler.next in *.
        destruct (AdbAuthenticationHandler.authenticators (authHandler h)
                    (AdbAuthenticationHandler.received (authHandler h) ++ [p]))
          as [answer | reason].
        -- unfold AdbPacketDispatcher.sendPacket, dispatcher in *.
           cbn [fst snd set_authHandler this set_dispatcher set_this] in *.
           destruct (AdbBackend.write (backend (this h))
                       (AdbPacketDispatcher.sent (packetDispatcher (this h)))
                       (SendPacket answer)) as [u | reason].
           ++ cbn [fst snd] in *.
              match type of Hdone with
              | resolver (awaitResolver rest ?h1) = _ =>
                  rewrite (IH h1) by (cbn; assumption)
              end.
              cbn. rewrite <- app_assoc. reflexivity.
           ++ cbn [fst snd] in Hdone.
              rewrite awaitResolver_settled in Hdone
                by (cbn; rewrite Hpend; discriminate).
              cbn in Hdone. rewrite Hpend in Hdone. discriminate.
        -- cbn [fst snd] in Hdone.
           rewrite awaitResolver_settled in Hdone
             by (cbn; rewrite Hpend; discriminate).
           cbn in Hdone. rewrite Hpend in Hdone. discriminate.
      * (* CLOSE *)
        cbn [challengesBefore]. rewrite Hcmd.
        rewrite (deliver_close p h Hcmd) in *. apply IH; assumption.
      * (* CONNECT *)
        cbn [challengesBefore]. rewrite Hcmd. cbn [answersTo map].
        destruct (deliver_connect_pending p h Hcmd Hpend) as (Hres & Hdisp).
        rewrite awaitResolver_settled by congruence.
        unfold dispatcher at 1. rewrite Hdisp, app_nil_r.
        apply negotiate_rest.
      * exfalso.
        assert (Hrej := deliver_unexpected p h).
        rewrite Hcmd in Hrej. specialize (Hrej ltac:(discriminate)
                                             ltac:(discriminate)
                                             ltac:(discriminate) Hpend).
        rewrite awaitResolver_settled in Hdone by congruence. congruence.
      * exfalso.
        assert (Hrej := deliver_unexpected p h).
        rewrite Hcmd in Hrej. specialize (Hrej ltac:(discriminate)
                                             ltac:(discriminate)
                                             ltac:(discriminate) Hpend).
        rewrite awaitResolver_settled in Hdone by congruence. congruence.
      * exfalso.
        assert (Hrej := deliver_unexpected p h).
        rewrite Hcmd in Hrej. specialize (Hrej ltac:(discriminate)
                                             ltac:(discriminate)
                                             ltac:(discriminate) Hpend).
        rewrite awaitResolver_settled in Hdone by congruence. congruence.
    + exfalso.
      assert (Hrej : resolver (deliver (ErrorEvent reason) h) =
                     PromiseResolver.Rejected reason)
        by (cbn; rewrite Hpend; reflexivity).
      rewrite awaitResolver_settled in Hdone by congruence. congruence.
Qed.

(** The packets of a fulfilled [connect] without events during the send. *)
Lemma connect_fulfilled_sent
  (auth : AdbAuthenticationHandler.Authenticators)
  (events : list DispatcherEvent) (a r : Adb) :
  connect auth events a = (r, PromiseResolver.Fulfilled) ->
  AdbPacketDispatcher.sent (packetDispatcher r) =
  AdbPacketDispatcher.sent (packetDispatcher a)
  ++ connectPacket
     :: map SendPacket (answersTo auth [] (challengesBefore events)).
Proof.
  intros Hrun.
  destruct (connect_cases auth events a r _ Hrun)
    as [(reason & _ & _ & Hout) | [(reason & _ & _ & Hout) | (u & Hsent & Hfin)]];
    try discriminate Hout.
  destruct (connect_send_state auth a)
    as (Hpend & _ & _ & _ & _ & Hlive & Hlist & Hsent0 & _).
  set (h0 := fst (connect_send auth a)) in *.
  destruct (awaitResolver_wiring events h0) as (_ & _ & Hl & Hd).
  assert (Hres : resolver (awaitResolver events h0) = PromiseResolver.Fulfilled).
  { rewrite <- connect_finish_outcome, Hfin. reflexivity. }
  pose proof (awaitResolver_sent_exact events h0 Hpend Hres) as Hexact.
  set (hF := awaitResolver events h0) in *.
  unfold connect_finish in Hfin. rewrite Hres in Hfin.
  pose proof (f_equal fst Hfin) as Hr. cbn [fst] in Hr. rewrite <- Hr.
  destruct (disposeList_effect (set_this (set_connected true (this hF)) hF)
              (AdbPacketDispatcher.packetListeners (packetDispatcher a))
              (AdbPacketDispatcher.errorListeners (packetDispatcher a)))
    as (_ & _ & _ & _ & Hs).
  { cbn [disposableList set_this]. congruence. }
  { change (listeners (this (set_this (set_connected true (this hF)) hF)))
      with (listeners (this hF)). congruence. }
  rewrite Hs.
  change (AdbPacketDispatcher.sent
            (packetDispatcher (this (set_this (set_connected true (this hF)) hF))))
    with (AdbPacketDispatcher.sent (dispatcher hF)).
  rewrite Hexact, Hsent0, <- app_assoc. reflexivity.
Qed.

(** X9: on a dispatcher that has no packet listener when [connect] is
    called, so none left by an earlier call, and when no CONNECT packet is
    raised while the send of the CONNECT packet is awaited: a [connect] that
    is fulfilled has sent its CONNECT packet, then one packet for each AUTH
    packet raised, during the send or after it, before the CONNECT reply,
    the answer of the authenticators to it, in order, and nothing else. *)
Theorem fulfilled_connect_sent_packets
  (auth : AdbAuthenticationHandler.Authenticators)
  (inflight events : list DispatcherEvent) (a r : Adb) :
  AdbPacketDispatcher.packetListeners (packetDispatcher a) = 0 ->
  firstConnect inflight = None ->
  connectDuring auth inflight events a = (r, PromiseResolver.Fulfilled) ->
  AdbPacketDispatcher.sent (packetDispatcher r) =
  AdbPacketDispatcher.sent (packetDispatcher a)
  ++ connectPacket
     :: map SendPacket (answersTo auth [] (challengesBefore (inflight ++ events))).
Proof.
  intros _ Hnone Hrun.
  destruct (connectDuring_cases auth inflight events a r _ Hrun)
    as [(reason & _ & _ & Hout) | [(reason & _ & _ & Hout) | (u & Hsent & Hfin)]];
    try discriminate Hout.
  destruct (connect_send_state auth a) as (Hpend & _).
  set (h0 := fst (connect_send auth a)) in *.
  destruct (deliverAll_not_connect inflight h0 Hnone) as (_ & _ & HfI).
  assert (Hres : resolver (awaitResolver events (deliverAll inflight h0)) =
                 PromiseResolver.Fulfilled).
  { rewrite <- connect_finish_outcome, Hfin. reflexivity. }
  assert (HpendI : resolver (deliverAll inflight h0) = PromiseResolver.Pending).
  { destruct (resolver (deliverAll inflight h0)) eqn:HresI.
    - reflexivity.
    - specialize (HfI eq_refl). congruence.
    - rewrite awaitResolver_settled in Hres by congruence. congruence. }
  apply connect_fulfilled_sent.
  rewrite <- (connectDuring_as_connect auth inflight events a u Hsent HpendI).
  exact Hrun.
Qed.

End Session.

(** * The claims on the sample session *)

(** A whole run: a stale CLOSE, one challenge answered, then the reply. *)
Example sample_run_completes :
  let run :=
    connect "stat_v2" sampleAuthenticators
      [PacketEvent sampleClose; PacketEvent sampleChallenge;
       PacketEvent sampleReply] sampleAdb in
  snd run = PromiseResolver.Fulfilled
  /\ connected (fst run) = true
  /\ parameters (fst run) = (0x40000%Z, false, false)
  /\ metadata (fst run) =
     (Some "widget", Some "X1", None, Some ["shell_v2"; "cmd"])
  /\ listeners (fst run) = (0, 0)
  /\ AdbPacketDispatcher.sent (packetDispatcher (fst run)) =
     [connectPacket "stat_v2"; SendPacket sampleSignature].
Proof. cbv zeta. repeat split; reflexivity. Qed.

(** A daemon of an older version keeps checksums and the null terminator. *)
Example legacy_run_keeps_checksum :
  parameters
    (fst (connect "stat_v2" sampleAuthenticators [PacketEvent legacyReply]
            sampleAdb)) = (0x1000%Z, true, true).
Proof. reflexivity. Qed.

(** An OKAY packet during the handshake rejects it; the listeners go. *)
Example unexpected_run_rejected :
  let run :=
    connect "stat_v2" sampleAuthenticators [PacketEvent sampleOkay] sampleAdb in
  snd run =
    PromiseResolver.Rejected
      (Error "Device not in correct state. Reconnect your device and try again")
  /\ connected (fst run) = false
  /\ listeners (fst run) = (0, 0).
Proof. cbv zeta. repeat split; reflexivity. Qed.

(** The device's reply is raised while the CONNECT packet is being sent,
    and the transport then refuses the packet: [connect] is rejected with
    what the listeners did in the meantime left in the session. *)
Example reply_during_failed_send :
  let run :=
    connectDuring "stat_v2" sampleAuthenticators [PacketEvent sampleReply] []
      brokenAdb in
  snd run = PromiseResolver.Rejected (Error "transfer failed")
  /\ connected (fst run) = false
  /\ parameters (fst run) = (0x40000%Z, false, false)
  /\ listeners (fst run) = (1, 1).
Proof. cbv zeta. repeat split; reflexivity. Qed.


Lemma connect_negotiates_maxPayloadSize_witness :
  snd (connect "stat_v2" sampleAuthenticators
         [PacketEvent sampleChallenge; PacketEvent sampleReply] sampleAdb) =
    PromiseResolver.Fulfilled
  /\ exists reply : AdbPacket,
      firstConnect [PacketEvent sampleChallenge; PacketEvent sampleReply] =
        Some reply
      /\ AdbPacketDispatcher.maxPayloadSize
           (packetDispatcher
              (fst (connect "stat_v2" sampleAuthenticators
                      [PacketEvent sampleChallenge; PacketEvent sampleReply]
                      sampleAdb))) =
         Z.min maxPayloadSize (arg1 reply).
Proof.
  split; [reflexivity |].
  apply (proj1 (proj2 (connect_negotiates_maxPayloadSize "stat_v2"))
           sampleAuthenticators
           [PacketEvent sampleChallenge; PacketEvent sampleReply] sampleAdb).
  reflexivity.
Defined.

Lemma connect_negotiates_checksum_witness :
  snd (connect "stat_v2" sampleAuthenticators [PacketEvent legacyReply] sampleAdb) =
    PromiseResolver.Fulfilled
  /\ exists reply : AdbPacket,
      firstConnect [PacketEvent legacyReply] = Some reply
      /\ if (versionNoChecksum <=? Z.min version (arg0 reply))%Z
         then
           AdbPacketDispatcher.calculateChecksum
             (packetDispatcher
                (fst (connect "stat_v2" sampleAuthenticators
                        [PacketEvent legacyReply] sampleAdb))) = false
           /\ AdbPacketDispatcher.appendNullToServiceString
                (packetDispatcher
                   (fst (connect "stat_v2" sampleAuthenticators
                           [PacketEvent legacyReply] sampleAdb))) = false
         else
           AdbPacketDispatcher.calculateChecksum
             (packetDispatcher
                (fst (connect "stat_v2" sampleAuthenticators
                        [PacketEvent legacyReply] sampleAdb))) = true
           /\ AdbPacketDispatcher.appendNullToServiceString
                (packetDispatcher
                   (fst (connect "stat_v2" sampleAuthenticators
                           [PacketEvent legacyReply] sampleAdb))) = true.
Proof.
  split; [reflexivity |].
  apply (proj2 (connect_negotiates_checksum "stat_v2") sampleAuthenticators
           [PacketEvent legacyReply] sampleAdb).
  reflexivity.
Defined.

Lemma badentry_has_no_equals : ~ JsString.occurs "="%char "badentry".
Proof.
  unfold JsString.occurs. cbn [list_ascii_of_string In].
  intros H. repeat (destruct H as [H | H]; [discriminate H |]). exact H.
Defined.

Lemma parseBanner_sample_and_malformed_entries_witness :
  ~ JsString.occurs "="%char "badentry"
  /\ parseProp sampleAdb "badentry" = sampleAdb
  /\ banner_entries "device::badentry;ro.product.device=d1" =
     [] ++ "badentry" :: ["ro.product.device=d1"]
  /\ parseBanner "device::badentry;ro.product.device=d1" sampleAdb =
     fold_left parseProp ([] ++ ["ro.product.device=d1"])
       (set_features (Some []) sampleAdb).
Proof.
  split; [exact badentry_has_no_equals | split; [| split; [reflexivity |]]].
  - exact (proj1 (proj2 parseBanner_sample_and_malformed_entries)
             sampleAdb "badentry" badentry_has_no_equals).
  - exact (proj1 (proj2 (proj2 parseBanner_sample_and_malformed_entries))
             "device::badentry;ro.product.device=d1" sampleAdb
             [] ["ro.product.device=d1"] "badentry" eq_refl
             badentry_has_no_equals).
Defined.

(** C5 as stated fails: on the sample session, when [connect] has sent its
    CONNECT packet the dispatcher's maxPayloadSize is 0x1000, not the
    0x100000 that the packet advertises as the local maximum. *)
Lemma initial_maxPayloadSize_is_not_the_local_maximum :
  ~ (let d := dispatcher (fst (connect_send "stat_v2" sampleAuthenticators sampleAdb)) in
     AdbPacketDispatcher.calculateChecksum d = true
     /\ AdbPacketDispatcher.appendNullToServiceString d = true
     /\ AdbPacketDispatcher.maxPayloadSize d = maxPayloadSize
     /\ In (SendCommand AdbCommand.Connect version maxPayloadSize
              ("host::features=" ++ features_csv "stat_v2" ++ ";" ++ NUL))
          (AdbPacketDispatcher.sent d)).
Proof.
  cbv zeta. intros (_ & _ & Hmax & _). discriminate Hmax.
Qed.

Lemma connect_initial_parameters_witness :
  (forall reason,
      AdbBackend.connect (backend sampleAdb) <> Some (Throws reason))
  /\ snd (connect "stat_v2" sampleAuthenticators [PacketEvent sampleClose] sampleAdb) =
     PromiseResolver.Pending
  /\ parameters
       (fst (connect "stat_v2" sampleAuthenticators [PacketEvent sampleClose]
               sampleAdb)) = (0x1000%Z, true, true).
Proof.
  assert (Hopen : forall reason,
             AdbBackend.connect (backend sampleAdb) <> Some (Throws reason))
    by (intros reason; discriminate).
  split; [exact Hopen | split; [reflexivity |]].
  exact (proj2 (proj2 (connect_initial_parameters "stat_v2" sampleAuthenticators
                         sampleAdb))
           [PacketEvent sampleClose] _ Hopen eq_refl).
Defined.

(** C7 as stated fails: whatever the value of [AdbFeatures.StatV2] and
    whatever follows the first eleven tokens, the service string of the
    CONNECT packet does not list the tokens as the claim spells them, with
    hyphens (shell-v2, stat-v2, ls-v2, ...): [connect] writes them with
    underscores. *)
Lemma connect_packet_tokens_are_not_hyphenated :
  ~ exists StatV2 rest : string,
      connectPacket StatV2 =
      SendCommand AdbCommand.Connect 0x01000001 0x100000
        ("host::features=shell-v2,cmd,stat-v2,ls-v2,fixed-push-mkdir,apex,abb,fixed-push-symlink-timestamp,abb-exec,remount-shell,track-app,"
         ++ rest).
Proof.
  intros (StatV2 & rest & Heq).
  unfold connectPacket, features_csv, features_list, JsString.join in Heq.
  cbn [String.concat append] in Heq.
  discriminate Heq.
Qed.

Lemma connect_sends_connect_packet_witness :
  (forall reason,
      AdbBackend.connect (backend sampleAdb) <> Some (Throws reason))
  /\ exists more,
      AdbPacketDispatcher.sent
        (packetDispatcher
           (fst (connect "stat_v2" sampleAuthenticators
                   [PacketEvent sampleChallenge; PacketEvent sampleReply]
                   sampleAdb))) =
      AdbPacketDispatcher.sent (packetDispatcher sampleAdb)
      ++ connectPacket "stat_v2" :: more.
Proof.
  assert (Hopen : forall reason,
             AdbBackend.connect (backend sampleAdb) <> Some (Throws reason))
    by (intros reason; discriminate).
  split; [exact Hopen |].
  exact (proj2 (proj2 (connect_sends_connect_packet "stat_v2" sampleAuthenticators
                         sampleAdb))
           [PacketEvent sampleChallenge; PacketEvent sampleReply] Hopen).
Defined.


Lemma parseBanner_resets_features_keeps_others_witness :
  List.length (JsString.split "::" "device") <= 1
  /\ banner_values AdbPropKey.Product "device::features=cmd" = []
  /\ features (parseBanner "device" sampleAdb) = Some []
  /\ product (parseBanner "device::features=cmd" sampleAdb) = product sampleAdb.
Proof.
  split; [apply le_n | split; [reflexivity | split]].
  - exact (proj1 (proj1 (proj2 (proj2 (parseBanner_resets_features_keeps_others
                                         "device" sampleAdb)))
                    (le_n 1))).
  - exact (proj1 (proj2 (proj2 (proj2 (proj2 (proj2 (proj2
             (parseBanner_resets_features_keeps_others
                "device::features=cmd" sampleAdb)))))))
             eq_refl).
Defined.

Lemma dispose_keeps_connected_witness :
  snd (connect "stat_v2" sampleAuthenticators [PacketEvent sampleReply] sampleAdb) =
    PromiseResolver.Fulfilled
  /\ connected
       (fst (dispose
               (fst (connect "stat_v2" sampleAuthenticators
                       [PacketEvent sampleReply] sampleAdb)))) = true.
Proof.
  split; [reflexivity |].
  exact (proj2 (proj2 (dispose_keeps_connected "stat_v2") sampleAuthenticators
                  [PacketEvent sampleReply] sampleAdb _ eq_refl)).
Defined.


(** * Further properties of banners and streams *)

(** ** Splitting and joining *)

Lemma occurs_append (c : ascii) (s t : string) :
  JsString.occurs c (s ++ t) <-> JsString.occurs c s \/ JsString.occurs c t.
Proof.
  unfold JsString.occurs. induction s as [| a s IH]; cbn [append list_ascii_of_string In].
  - tauto.
  - rewrite IH. tauto.
Qed.

Lemma prefix_single_same (c : ascii) (s : string) :
  String.prefix (String c EmptyString) (String c s) = true.
Proof.
  simpl. destruct (ascii_dec c c) as [Heq | Hneq]; [| contradiction].
  destruct s; reflexivity.
Qed.

Lemma split_from_nonempty (sep : string) (s : string) :
  forall skip, JsString.split_from sep skip s <> [].
Proof.
  induction s as [| a s IH]; intros skip; cbn [JsString.split_from].
  - discriminate.
  - destruct skip as [| k]; [| apply IH].
    destruct (String.prefix sep (String a s)); [discriminate |].
    unfold JsString.cons_head.
    destruct (JsString.split_from sep 0 s); discriminate.
Qed.

(** Up to the first separator character. *)
Lemma split_single_app (c : ascii) (x y : string) :
  ~ JsString.occurs c x ->
  JsString.split (String c EmptyString) (x ++ String c y) =
  x :: JsString.split (String c EmptyString) y.
Proof.
  unfold JsString.split, JsString.occurs.
  induction x as [| a x IH]; intros Hno.
  - cbn [append JsString.split_from]. rewrite prefix_single_same.
    reflexivity.
  - cbn [append JsString.split_from].
    destruct (String.prefix (String c EmptyString) (String a (x ++ String c y)))
      eqn:Hpre.
    + apply prefix_single in Hpre. exfalso. apply Hno. left. symmetry. exact Hpre.
    + rewrite IH; [reflexivity |].
      intros Hin. apply Hno. right. exact Hin.
Qed.

(** Joining pieces that are free of the separator and splitting again
    gives the pieces back. *)
Lemma split_join_single (c : ascii) (l : list string) :
  l <> [] ->
  Forall (fun s => ~ JsString.occurs c s) l ->
  JsString.split (String c EmptyString) (JsString.join (String c EmptyString) l) = l.
Proof.
  unfold JsString.join.
  induction l as [| x l IH]; intros Hne Hall; [contradiction |].
  inversion Hall as [| x' l' Hx Hl]; subst.
  destruct l as [| y l].
  - cbn [String.concat]. apply split_absent. exact Hx.
  - change (String.concat (String c EmptyString) (x :: y :: l))
      with (x ++ String c (String.concat (String c EmptyString) (y :: l)))%string.
    rewrite (split_single_app c x _ Hx). f_equal.
    apply IH; [discriminate | exact Hl].
Qed.

Lemma concat_cons_head (sep : string) (a : ascii) (l : list string) :
  l <> [] ->
  String.concat sep (JsString.cons_head a l) = String a (String.concat sep l).
Proof.
  destruct l as [| r [| r' rs]]; intros Hne; [contradiction | reflexivity | reflexivity].
Qed.

(** Joining the pieces of a string gives the string back. *)
Lemma join_split_single (c : ascii) (s : string) :
  JsString.join (String c EmptyString) (JsString.split (String c EmptyString) s) = s.
Proof.
  unfold JsString.join, JsString.split.
  induction s as [| a s IH]; [reflexivity |].
  cbn [JsString.split_from].
  destruct (String.prefix (String c EmptyString) (String a s)) eqn:Hpre.
  - apply prefix_single in Hpre. subst a.
    change (String.length (String c EmptyString) - 1) with 0.
    destruct (JsString.split_from (String c EmptyString) 0 s) as [| r rs] eqn:Hs.
    + destruct (split_from_nonempty _ _ _ Hs).
    + change (String.concat (String c EmptyString) (EmptyString :: r :: rs))
        with (String c (String.concat (String c EmptyString) (r :: rs))).
      rewrite IH. reflexivity.
  - rewrite concat_cons_head by apply split_from_nonempty.
    rewrite IH. reflexivity.
Qed.

(** No piece contains the separator character. *)
Lemma split_pieces_clean (c : ascii) (s : string) :
  Forall (fun piece => ~ JsString.occurs c piece)
    (JsString.split (String c EmptyString) s).
Proof.
  unfold JsString.split, JsString.occurs.
  induction s as [| a s IH]; cbn [JsString.split_from].
  - constructor; [intros [] | constructor].
  - destruct (String.prefix (String c EmptyString) (String a s)) eqn:Hpre.
    + constructor; [intros [] | exact IH].
    + assert (Hac : c <> a).
      { intros ->. rewrite prefix_single_same in Hpre. discriminate. }
      destruct (JsString.split_from (String c EmptyString) 0 s) as [| r rs];
        cbn [JsString.cons_head].
      * constructor; [| constructor].
        cbn [list_ascii_of_string In]. intros [Heq | []]. congruence.
      * inversion IH as [| r' rs' Hr Hrs]; subst. constructor; [| exact Hrs].
        cbn [list_ascii_of_string In]. intros [Heq | Hin]; [congruence | tauto].
Qed.

(** The two sections of a banner whose text has no colon elsewhere. *)
Lemma split_sections (x y : string) :
  ~ JsString.occurs ":"%char x ->
  ~ JsString.occurs ":"%char y ->
  JsString.split "::" (x ++ "::" ++ y) = [x; y].
Proof.
  unfold JsString.split, JsString.occurs. intros Hx Hy.
  assert (Hclean : forall s, ~ In ":"%char (list_ascii_of_string s) ->
                             JsString.split_from "::" 0 s = [s]).
  { induction s as [| a s IH]; intros Hs; [reflexivity |].
    cbn [JsString.split_from].
    assert (Hpre : String.prefix "::" (String a s) = false).
    { cbn [String.prefix]. destruct (ascii_dec ":" a) as [Heq | Hneq]; [| reflexivity].
      exfalso. apply Hs. left. symmetry. exact Heq. }
    rewrite Hpre, IH; [reflexivity |].
    intros Hin. apply Hs. right. exact Hin. }
  induction x as [| a x IH].
  - destruct y as [| b y]; [reflexivity |].
    change (JsString.split_from "::" 0 ("" ++ "::" ++ String b y))
      with (EmptyString :: JsString.split_from "::" 0 (String b y)).
    rewrite (Hclean (String b y) Hy). reflexivity.
  - change (String a x ++ "::" ++ y)%string with (String a (x ++ "::" ++ y)).
    cbn [JsString.split_from].
    assert (Hpre : String.prefix "::" (String a (x ++ "::" ++ y)) = false).
    { cbn [String.prefix]. destruct (ascii_dec ":" a) as [Heq | Hneq]; [| reflexivity].
      exfalso. apply Hx. left. symmetry. exact Heq. }
    rewrite Hpre, IH; [reflexivity |].
    intros Hin. apply Hx. right. exact Hin.
Qed.

Lemma occurs_concat (c : ascii) (sep : string) (l : list string) :
  ~ JsString.occurs c sep ->
  Forall (fun s => ~ JsString.occurs c s) l ->
  ~ JsString.occurs c (String.concat sep l).
Proof.
  intros Hsep Hall. induction Hall as [| x l Hx Hl IH].
  - intros [].
  - destruct l as [| y l]; [exact Hx |].
    change (String.concat sep (x :: y :: l))
      with (x ++ sep ++ String.concat sep (y :: l))%string.
    rewrite !occurs_append. tauto.
Qed.

Lemma last_in {A : Type} (l : list A) (d : A) : l <> [] -> In (last l d) l.
Proof.
  induction l as [| x l IH]; intros Hne; [contradiction |].
  destruct l as [| y l]; [left; reflexivity |].
  right. apply IH. discriminate.
Qed.

Lemma last_twice {A : Type} (l : list A) (d : A) : last l (last l d) = last l d.
Proof.
  destruct l as [| x l]; [reflexivity |].
  rewrite !last_cons_default. reflexivity.
Qed.

Lemma Adb_ext (a b : Adb) :
  packetDispatcher a = packetDispatcher b ->
  backend a = backend b ->
  _connected a = _connected b ->
  metadata a = metadata b ->
  a = b.
Proof.
  destruct a, b. unfold metadata, product, model, device, features.
  cbn. intros -> -> -> Hmeta. injection Hmeta as -> -> -> ->. reflexivity.
Qed.

(** ** More on [parseBanner] *)

(** An entry [key=value] whose key and value have no further '='. *)
Lemma parseProp_pair (a : Adb) (key value : string) :
  key <> EmptyString ->
  ~ JsString.occurs "="%char key ->
  ~ JsString.occurs "="%char value ->
  parseProp a (key ++ String "="%char value) =
  if String.eqb key AdbPropKey.Product then set_product (Some value) a
  else if String.eqb key AdbPropKey.Model then set_model (Some value) a
  else if String.eqb key AdbPropKey.Device then set_device (Some value) a
  else if String.eqb key AdbPropKey.Features
       then set_features (Some (JsString.split "," value)) a
  else a.
Proof.
  intros Hne Hk Hv. unfold parseProp.
  assert (Hfalsy : JsString.falsy (key ++ String "="%char value) = false)
    by (destruct key; [contradiction | reflexivity]).
  rewrite Hfalsy.
  change "="%string with (String "="%char EmptyString).
  rewrite (split_single_app "="%char key value Hk).
  rewrite (split_absent "="%char value Hv). reflexivity.
Qed.

(** A banner put together from a head and entries that are free of the
    characters that delimit them parses entry by entry. *)
Lemma parseBanner_built (head : string) (entries : list string) (a : Adb) :
  ~ JsString.occurs ":"%char head ->
  entries <> [] ->
  Forall (fun e => ~ JsString.occurs ":"%char e) entries ->
  Forall (fun e => ~ JsString.occurs ";"%char e) entries ->
  parseBanner (head ++ "::" ++ JsString.join ";" entries) a =
  fold_left parseProp entries (set_features (Some []) a).
Proof.
  intros Hhead Hne Hcolon Hsemi.
  rewrite parseBanner_entries. unfold banner_entries.
  rewrite (split_sections head (JsString.join ";" entries) Hhead).
  - cbn [List.length Nat.ltb Nat.leb nth].
    change ";"%string with (String ";"%char EmptyString).
    rewrite (split_join_single ";"%char entries Hne Hsemi). reflexivity.
  - unfold JsString.join. apply occurs_concat; [| exact Hcolon].
    cbn. intros [Heq | []]. discriminate Heq.
Qed.

(** X1: [parseProp] changes the session only for an entry [key=value] with
    exactly one '=' whose key is one of the four property keys; every other
    entry, a value with a further '=' among them, is dropped. *)
Theorem parseProp_changes_only_known_pairs (a : Adb) (prop : string) :
  parseProp a prop <> a ->
  exists key value : string,
    prop = (key ++ "=" ++ value)%string
    /\ ~ JsString.occurs "="%char key
    /\ ~ JsString.occurs "="%char value
    /\ In key [AdbPropKey.Product; AdbPropKey.Model; AdbPropKey.Device;
               AdbPropKey.Features].
Proof.
  intros Hchanged.
  pose proof (join_split_single "="%char prop) as Hjoin.
  pose proof (split_pieces_clean "="%char prop) as Hclean.
  unfold parseProp in Hchanged.
  change "="%string with (String "="%char EmptyString) in Hchanged.
  destruct (JsString.falsy prop); [contradiction |].
  destruct (JsString.split (String "="%char EmptyString) prop)
    as [| key [| value [| extra l]]]; try contradiction.
  cbn [List.length Nat.eqb negb] in Hchanged.
  pose proof (Forall_inv Hclean) as Hk.
  pose proof (Forall_inv (Forall_inv_tail Hclean)) as Hv.
  cbv beta in Hk, Hv.
  exists key, value. split; [symmetry; exact Hjoin |].
  split; [exact Hk | split; [exact Hv |]].
  destruct (String.eqb_spec key AdbPropKey.Product) as [-> | _];
    [left; reflexivity |].
  destruct (String.eqb_spec key AdbPropKey.Model) as [-> | _];
    [right; left; reflexivity |].
  destruct (String.eqb_spec key AdbPropKey.Device) as [-> | _];
    [right; right; left; reflexivity |].
  destruct (String.eqb_spec key AdbPropKey.Features) as [-> | _];
    [right; right; right; left; reflexivity | contradiction].
Qed.

(** X2: after [parseBanner] the features are the empty list exactly when
    no entry of the banner gives the features; an entry [features=] with
    an empty value gives the one-element list of the empty string. *)
Theorem parseBanner_features_empty_iff (banner : string) (a : Adb) :
  (features (parseBanner banner a) = Some []
   <-> banner_values AdbPropKey.Features banner = [])
  /\ (forall head : string,
        ~ JsString.occurs ":"%char head ->
        features (parseBanner (head ++ "::features=") a) = Some [EmptyString]).
Proof.
  split.
  - rewrite parseBanner_entries.
    rewrite (fold_parseProp_features (banner_entries banner)
               (set_features (Some []) a) [] eq_refl).
    fold (banner_values AdbPropKey.Features banner).
    destruct (banner_values AdbPropKey.Features banner) as [| v vs] eqn:Hvals.
    + split; reflexivity.
    + split; [| discriminate].
      remember (last (map (JsString.split ",") (v :: vs)) []) as t eqn:Ht.
      intros Hlast. injection Hlast as ->.
      assert (Hin : In [] (map (JsString.split ",") (v :: vs)))
        by (rewrite Ht; apply last_in; discriminate).
      apply in_map_iff in Hin.
      destruct Hin as (x & Hx & _).
      exfalso. apply (split_from_nonempty "," x 0). exact Hx.
  - intros head Hhead.
    change (head ++ "::features=")%string
      with (head ++ "::" ++ JsString.join ";" ["features="])%string.
    rewrite (parseBanner_built head ["features="] a Hhead).
    + reflexivity.
    + discriminate.
    + constructor; [| constructor]. cbn. intuition discriminate.
    + constructor; [| constructor]. cbn. intuition discriminate.
Qed.

(** X3: parsing the same banner a second time changes nothing. *)
Theorem parseBanner_idempotent (banner : string) (a : Adb) :
  parseBanner banner (parseBanner banner a) = parseBanner banner a.
Proof.
  destruct (parseBanner_wiring banner a) as (Hd & Hb & Hc).
  destruct (parseBanner_wiring banner (parseBanner banner a)) as (Hd2 & Hb2 & Hc2).
  apply Adb_ext; try congruence.
  unfold metadata.
  rewrite !(parseBanner_entries banner).
  set (start := set_features (Some []) a).
  set (again := set_features (Some [])
                  (fold_left parseProp (banner_entries banner) start)).
  rewrite (fold_parseProp_last product AdbPropKey.Product parseProp_product _ again).
  rewrite (fold_parseProp_last model AdbPropKey.Model parseProp_model _ again).
  rewrite (fold_parseProp_last device AdbPropKey.Device parseProp_device _ again).
  rewrite (fold_parseProp_features _ again [] eq_refl).
  rewrite (fold_parseProp_last product AdbPropKey.Product parseProp_product _ start).
  rewrite (fold_parseProp_last model AdbPropKey.Model parseProp_model _ start).
  rewrite (fold_parseProp_last device AdbPropKey.Device parseProp_device _ start).
  rewrite (fold_parseProp_features _ start [] eq_refl).
  unfold again.
  change (product (set_features (Some [])
                     (fold_left parseProp (banner_entries banner) start)))
    with (product (fold_left parseProp (banner_entries banner) start)).
  change (model (set_features (Some [])
                   (fold_left parseProp (banner_entries banner) start)))
    with (model (fold_left parseProp (banner_entries banner) start)).
  change (device (set_features (Some [])
                    (fold_left parseProp (banner_entries banner) start)))
    with (device (fold_left parseProp (banner_entries banner) start)).
  rewrite (fold_parseProp_last product AdbPropKey.Product parseProp_product _ start).
  rewrite (fold_parseProp_last model AdbPropKey.Model parseProp_model _ start).
  rewrite (fold_parseProp_last device AdbPropKey.Device parseProp_device _ start).
  rewrite !last_twice. reflexivity.
Qed.

Ltac literal_clean :=
  let H := fresh "H" in
  unfold JsString.occurs; cbn [list_ascii_of_string In append];
  intros H; repeat (destruct H as [H | H]; [discriminate H |]); exact H.

Lemma parseProp_product_entry (a : Adb) (value : string) :
  ~ JsString.occurs "="%char value ->
  parseProp a ("ro.product.name" ++ String "="%char value) =
  set_product (Some value) a.
Proof.
  intros Hv. rewrite parseProp_pair;
    [reflexivity | discriminate | literal_clean | exact Hv].
Qed.

Lemma parseProp_model_entry (a : Adb) (value : string) :
  ~ JsString.occurs "="%char value ->
  parseProp a ("ro.product.model" ++ String "="%char value) =
  set_model (Some value) a.
Proof.
  intros Hv. rewrite parseProp_pair;
    [reflexivity | discriminate | literal_clean | exact Hv].
Qed.

Lemma parseProp_device_entry (a : Adb) (value : string) :
  ~ JsString.occurs "="%char value ->
  parseProp a ("ro.product.device" ++ String "="%char value) =
  set_device (Some value) a.
Proof.
  intros Hv. rewrite parseProp_pair;
    [reflexivity | discriminate | literal_clean | exact Hv].
Qed.

Lemma parseProp_features_entry (a : Adb) (value : string) :
  ~ JsString.occurs "="%char value ->
  parseProp a ("features" ++ String "="%char value) =
  set_features (Some (JsString.split "," value)) a.
Proof.
  intros Hv. rewrite parseProp_pair;
    [reflexivity | discriminate | literal_clean | exact Hv].
Qed.

Lemma plainTokens_clean (l : list string) :
  Forall plainToken l ->
  Forall (fun s => ~ JsString.occurs ":"%char s) l
  /\ Forall (fun s => ~ JsString.occurs ";"%char s) l
  /\ Forall (fun s => ~ JsString.occurs "="%char s) l
  /\ Forall (fun s => ~ JsString.occurs ","%char s) l.
Proof.
  intros Hall. repeat split;
    (eapply Forall_impl; [| exact Hall]); intros s Hs; apply Hs.
Qed.

Lemma joined_features_clean (l : list string) :
  Forall plainToken l ->
  ~ JsString.occurs ":"%char (JsString.join "," l)
  /\ ~ JsString.occurs ";"%char (JsString.join "," l)
  /\ ~ JsString.occurs "="%char (JsString.join "," l).
Proof.
  intros Hall. destruct (plainTokens_clean l Hall) as (Hc & Hs & He & _).
  unfold JsString.join.
  repeat split; (apply occurs_concat; [literal_clean | assumption]).
Qed.

Lemma entry_clean (c : ascii) (key value : string) :
  c <> "="%char ->
  ~ JsString.occurs c key ->
  ~ JsString.occurs c value ->
  ~ JsString.occurs c (key ++ String "="%char value).
Proof.
  intros Hc Hk Hv. rewrite occurs_append. intros [Hin | Hin]; [tauto |].
  unfold JsString.occurs in *. cbn [list_ascii_of_string In] in Hin.
  destruct Hin as [Heq | Hin]; [congruence | tauto].
Qed.

(** X4: a banner in the daemon's usual form,
    [head::ro.product.name=P;ro.product.model=M;ro.product.device=D;features=f1,...,fn;],
    whose head has no colon and whose values have none of the delimiters
    [: ; = ,], parses to exactly product P, model M, device D and the
    features f1 ... fn in order, whatever the session held before. *)
Theorem parseBanner_usual_form (head P M D : string) (l : list string) (a : Adb) :
  ~ JsString.occurs ":"%char head ->
  plainToken P -> plainToken M -> plainToken D ->
  l <> [] -> Forall plainToken l ->
  metadata
    (parseBanner
       (head ++ "::ro.product.name=" ++ P ++ ";ro.product.model=" ++ M
        ++ ";ro.product.device=" ++ D ++ ";features=" ++ JsString.join "," l
        ++ ";") a) =
  (Some P, Some M, Some D, Some l).
Proof.
  intros Hhead HP HM HD Hne Hl.
  destruct HP as (HPc & HPs & HPe & _).
  destruct HM as (HMc & HMs & HMe & _).
  destruct HD as (HDc & HDs & HDe & _).
  destruct (joined_features_clean l Hl) as (HFc & HFs & HFe).
  destruct (plainTokens_clean l Hl) as (_ & _ & _ & Hcomma).
  set (e1 := ("ro.product.name" ++ String "="%char P)%string).
  set (e2 := ("ro.product.model" ++ String "="%char M)%string).
  set (e3 := ("ro.product.device" ++ String "="%char D)%string).
  set (e4 := ("features" ++ String "="%char (JsString.join "," l))%string).
  assert (Hshape :
            (head ++ "::ro.product.name=" ++ P ++ ";ro.product.model=" ++ M
             ++ ";ro.product.device=" ++ D ++ ";features=" ++ JsString.join "," l
             ++ ";")%string =
            (head ++ "::" ++ JsString.join ";" [e1; e2; e3; e4; EmptyString])%string).
  { unfold JsString.join at 2. cbn [String.concat]. unfold e1, e2, e3, e4.
    rewrite !append_assoc. reflexivity. }
  rewrite Hshape.
  rewrite (parseBanner_built head [e1; e2; e3; e4; EmptyString] a Hhead).
  - cbn [fold_left]. unfold e1, e2, e3, e4.
    rewrite (parseProp_product_entry _ P HPe).
    rewrite (parseProp_model_entry _ M HMe).
    rewrite (parseProp_device_entry _ D HDe).
    rewrite (parseProp_features_entry _ _ HFe).
    change ","%string with (String ","%char EmptyString).
    rewrite (split_join_single ","%char l Hne Hcomma). reflexivity.
  - discriminate.
  - unfold e1, e2, e3, e4.
    repeat (constructor;
            [first [ apply entry_clean;
                     [discriminate | literal_clean | assumption]
                   | literal_clean ] |]).
    constructor.
  - unfold e1, e2, e3, e4.
    repeat (constructor;
            [first [ apply entry_clean;
                     [discriminate | literal_clean | assumption]
                   | literal_clean ] |]).
    constructor.
Qed.

Lemma features_list_plain (StatV2 : string) :
  plainToken StatV2 -> Forall plainToken (features_list StatV2).
Proof.
  intros Hstat. unfold features_list.
  repeat (constructor;
          [first [ exact Hstat | repeat split; literal_clean ] |]).
  constructor.
Qed.

(** X5: the service string of the CONNECT packet that [connect] sends has
    the grammar that [parseBanner] reads: parsing it gives back exactly the
    list of features that [connect] joined, in order, and touches neither
    product, model nor device (the token [AdbFeatures.StatV2] being free of
    the delimiters [: ; = ,]). *)
Theorem advertised_features_parse_back (StatV2 service : string) (a : Adb) :
  plainToken StatV2 ->
  connectPacket StatV2 =
    SendCommand AdbCommand.Connect version maxPayloadSize service ->
  features (parseBanner service a) = Some (features_list StatV2)
  /\ product (parseBanner service a) = product a
  /\ model (parseBanner service a) = model a
  /\ device (parseBanner service a) = device a.
Proof.
  intros Hstat Hpacket.
  pose proof (features_list_plain StatV2 Hstat) as Hplain.
  destruct (joined_features_clean (features_list StatV2) Hplain) as (HFc & HFs & HFe).
  destruct (plainTokens_clean (features_list StatV2) Hplain) as (_ & _ & _ & Hcomma).
  assert (Hservice :
            service =
            ("host::features=" ++ features_csv StatV2 ++ ";" ++ NUL)%string)
    by (unfold connectPacket in Hpacket; congruence).
  rewrite Hservice. clear Hservice Hpacket.
  set (entry := ("features" ++ String "="%char (features_csv StatV2))%string).
  assert (Hshape :
            ("host::features=" ++ features_csv StatV2 ++ ";" ++ NUL)%string =
            ("host" ++ "::" ++ JsString.join ";" [entry; NUL])%string).
  { unfold JsString.join at 1. cbn [String.concat]. unfold entry.
    rewrite !append_assoc. reflexivity. }
  rewrite Hshape.
  rewrite (parseBanner_built "host" [entry; NUL] a).
  - cbn [fold_left]. unfold entry.
    rewrite (parseProp_features_entry _ _ HFe).
    rewrite parseProp_without_equals by (unfold NUL; literal_clean).
    unfold features_csv.
    change ","%string with (String ","%char EmptyString).
    rewrite (split_join_single ","%char (features_list StatV2));
      [| discriminate | exact Hcomma].
    repeat split; reflexivity.
  - literal_clean.
  - discriminate.
  - constructor; [| constructor; [unfold NUL; literal_clean | constructor]].
    apply entry_clean; [discriminate | literal_clean | exact HFc].
  - constructor; [| constructor; [unfold NUL; literal_clean | constructor]].
    apply entry_clean; [discriminate | literal_clean | exact HFs].
Qed.

(** ** [createStreamAndReadAll] *)

Lemma append_empty_r (s : string) : (s ++ "")%string = s.
Proof.
  induction s as [| c s IH]; cbn [append]; [reflexivity | rewrite IH; reflexivity].
Qed.

Lemma concat_empty_cons (x : string) (l : list string) :
  String.concat "" (x :: l) = (x ++ String.concat "" l)%string.
Proof.
  destruct l as [| y l]; cbn [String.concat].
  - symmetry. apply append_empty_r.
  - reflexivity.
Qed.

Lemma readAll_chunks (b : AdbBackend.t) (chunks : list (list Byte.byte)) :
  forall text : string,
    fold_left (readAll_listen b) (map DataEvent chunks)
      {| result := text; resolved := None |} =
    {| result :=
         text ++ String.concat ""
                   (map (fun c => AdbBackend.decodeUtf8 b (Some c)) chunks);
       resolved := None |}.
Proof.
  induction chunks as [| c chunks IH]; intros text.
  - cbn. rewrite append_empty_r. reflexivity.
  - cbn [map fold_left readAll_listen result resolved].
    rewrite IH, concat_empty_cons, append_assoc. reflexivity.
Qed.

Lemma readAll_resolved_stays (b : AdbBackend.t) (events : list StreamEvent) :
  forall (st : ReadAll) (text : string),
    resolved st = Some text ->
    resolved (fold_left (readAll_listen b) events st) = Some text.
Proof.
  induction events as [| ev events IH]; intros st text Hst; [exact Hst |].
  cbn [fold_left]. apply IH.
  destruct ev; cbn [readAll_listen resolved]; rewrite Hst; reflexivity.
Qed.

(** X10: [createStreamAndReadAll] resolves, when the stream closes, with
    the decoded chunks received until then joined in the order of their
    arrival; chunks and closes that come later change nothing, and the
    promise stays pending for as long as the stream does not close. *)
Theorem readAll_until_first_close (b : AdbBackend.t)
  (chunks : list (list Byte.byte)) (later : list StreamEvent) :
  readAll b (map DataEvent chunks ++ CloseEvent :: later) =
    Some (String.concat ""
            (map (fun c => AdbBackend.decodeUtf8 b (Some c)) chunks))
  /\ readAll b (map DataEvent chunks) = None.
Proof.
  unfold readAll. split.
  - rewrite fold_left_app, readAll_chunks. cbn [fold_left].
    apply readAll_resolved_stays. reflexivity.
  - rewrite readAll_chunks. reflexivity.
Qed.

(** * The further properties on the sample session *)

Ltac plain_literal :=
  let H := fresh "H" in
  unfold JsString.occurs; cbn [list_ascii_of_string In append];
  intros H; repeat (destruct H as [H | H]; [discriminate H |]); exact H.

Lemma parseProp_changes_only_known_pairs_witness :
  parseProp sampleAdb "ro.product.name=widget" <> sampleAdb
  /\ exists key value : string,
      "ro.product.name=widget" = (key ++ "=" ++ value)%string
      /\ ~ JsString.occurs "="%char key
      /\ ~ JsString.occurs "="%char value
      /\ In key [AdbPropKey.Product; AdbPropKey.Model; AdbPropKey.Device;
                 AdbPropKey.Features].
Proof.
  assert (Hne : parseProp sampleAdb "ro.product.name=widget" <> sampleAdb).
  { intros Heq. apply (f_equal product) in Heq. vm_compute in Heq.
    discriminate Heq. }
  split; [exact Hne |].
  exact (parseProp_changes_only_known_pairs sampleAdb _ Hne).
Defined.

Lemma parseBanner_features_empty_iff_witness :
  ~ JsString.occurs ":"%char "device"
  /\ features (parseBanner "device::features=" sampleAdb) = Some [EmptyString].
Proof.
  assert (Hhead : ~ JsString.occurs ":"%char "device") by plain_literal.
  split; [exact Hhead |].
  exact (proj2 (parseBanner_features_empty_iff "device" sampleAdb) "device" Hhead).
Defined.

Lemma parseBanner_usual_form_witness :
  ~ JsString.occurs ":"%char "device"
  /\ plainToken "widget" /\ plainToken "X1" /\ plainToken "w1"
  /\ Forall plainToken ["shell_v2"; "cmd"]
  /\ metadata
       (parseBanner
          "device::ro.product.name=widget;ro.product.model=X1;ro.product.device=w1;features=shell_v2,cmd;"
          sampleAdb) =
     (Some "widget", Some "X1", Some "w1", Some ["shell_v2"; "cmd"]).
Proof.
  assert (Hhead : ~ JsString.occurs ":"%char "device") by plain_literal.
  assert (HP : plainToken "widget") by (repeat split; plain_literal).
  assert (HM : plainToken "X1") by (repeat split; plain_literal).
  assert (HD : plainToken "w1") by (repeat split; plain_literal).
  assert (Hl : Forall plainToken ["shell_v2"; "cmd"])
    by (repeat constructor; plain_literal).
  repeat (split; [assumption |]).
  exact (parseBanner_usual_form "device" "widget" "X1" "w1" ["shell_v2"; "cmd"]
           sampleAdb Hhead HP HM HD ltac:(discriminate) Hl).
Defined.

Lemma advertised_features_parse_back_witness :
  plainToken "stat_v2"
  /\ features
       (parseBanner ("host::features=" ++ features_csv "stat_v2" ++ ";" ++ NUL)
          sampleAdb) = Some (features_list "stat_v2").
Proof.
  assert (Hstat : plainToken "stat_v2") by (repeat split; plain_literal).
  split; [exact Hstat |].
  exact (proj1 (advertised_features_parse_back "stat_v2" _ sampleAdb Hstat eq_refl)).
Defined.

Lemma connected_iff_fulfilled_witness :
  connected sampleAdb = false
  /\ (connected
        (fst (connect "stat_v2" sampleAuthenticators [PacketEvent sampleReply]
                sampleAdb)) = true
      <-> snd (connect "stat_v2" sampleAuthenticators [PacketEvent sampleReply]
                 sampleAdb) = PromiseResolver.Fulfilled).
Proof.
  split; [reflexivity |].
  exact (connected_iff_fulfilled "stat_v2" sampleAuthenticators
           [PacketEvent sampleReply] sampleAdb eq_refl).
Defined.

Lemma unfulfilled_connect_resets_parameters_witness :
  let negotiated :=
    fst (connect "stat_v2" sampleAuthenticators [PacketEvent sampleReply]
           sampleAdb) in
  parameters negotiated = (0x40000%Z, false, false)
  /\ firstConnect [PacketEvent sampleChallenge] = None
  /\ snd (connectDuring "stat_v2" sampleAuthenticators
            [PacketEvent sampleChallenge] [PacketEvent sampleOkay] negotiated)
     <> PromiseResolver.Fulfilled
  /\ parameters
       (fst (connectDuring "stat_v2" sampleAuthenticators
               [PacketEvent sampleChallenge] [PacketEvent sampleOkay]
               negotiated)) = (0x1000%Z, true, true).
Proof.
  cbv zeta. split; [reflexivity | split; [reflexivity |]].
  assert (Hnot :
            snd (connectDuring "stat_v2" sampleAuthenticators
                   [PacketEvent sampleChallenge] [PacketEvent sampleOkay]
                   (fst (connect "stat_v2" sampleAuthenticators
                           [PacketEvent sampleReply] sampleAdb)))
            <> PromiseResolver.Fulfilled) by discriminate.
  split; [exact Hnot |].
  assert (Hopen :
            forall reason,
              AdbBackend.connect
                (backend
                   (fst (connect "stat_v2" sampleAuthenticators
                           [PacketEvent sampleReply] sampleAdb)))
              <> Some (Throws reason)).
  { intros reason Heq. vm_compute in Heq. discriminate Heq. }
  exact (unfulfilled_connect_resets_parameters "stat_v2" sampleAuthenticators
           [PacketEvent sampleChallenge] [PacketEvent sampleOkay] _
           Hopen eq_refl Hnot).
Defined.

Lemma connect_releases_listeners_once_sent_witness :
  snd (connect "stat_v2" sampleAuthenticators [PacketEvent sampleOkay] sampleAdb)
    <> PromiseResolver.Pending
  /\ listeners
       (fst (connect "stat_v2" sampleAuthenticators [PacketEvent sampleOkay]
               sampleAdb)) = listeners sampleAdb.
Proof.
  assert (Hset :
            snd (connect "stat_v2" sampleAuthenticators [PacketEvent sampleOkay]
                   sampleAdb) <> PromiseResolver.Pending) by discriminate.
  split; [exact Hset |].
  assert (Hopen :
            forall reason,
              AdbBackend.connect (backend sampleAdb) <> Some (Throws reason))
    by (intros reason; discriminate).
  exact (connect_releases_listeners_once_sent "stat_v2" sampleAuthenticators
           [PacketEvent sampleOkay] sampleAdb tt Hopen eq_refl Hset).
Defined.

Lemma fulfilled_connect_sent_packets_witness :
  let inflight := [PacketEvent sampleChallenge] in
  let events :=
    [PacketEvent sampleClose; PacketEvent sampleChallenge;
     PacketEvent sampleReply] in
  AdbPacketDispatcher.packetListeners (packetDispatcher sampleAdb) = 0
  /\ firstConnect inflight = None
  /\ snd (connectDuring "stat_v2" sampleAuthenticators inflight events sampleAdb) =
     PromiseResolver.Fulfilled
  /\ AdbPacketDispatcher.sent
       (packetDispatcher
          (fst (connectDuring "stat_v2" sampleAuthenticators inflight events
                  sampleAdb))) =
     [connectPacket "stat_v2"; SendPacket sampleSignature;
      SendPacket sampleSignature].
Proof.
  cbv zeta.
  split; [reflexivity | split; [reflexivity | split; [reflexivity |]]].
  exact (fulfilled_connect_sent_packets "stat_v2" sampleAuthenticators
           [PacketEvent sampleChallenge]
           [PacketEvent sampleClose; PacketEvent sampleChallenge;
            PacketEvent sampleReply]
           sampleAdb _ eq_refl eq_refl eq_refl).
Defined.

(** * Properties of the routing components *)

Section RouterProperties.

Import Router.

Variable matchPath : string -> Props.t -> option Match.
Variable concatStyleSets : option StyleSet -> StyleSet -> StyleSet.
Variable slideUpIn10 : string.

(** ** [CacheSwitch] *)

Lemma forEachChild_cached (location : Location) (contextMatch : option Match)
  (children : list ReactNode) :
  forall locals : Locals,
    cached (fold_left (forEachChild matchPath location contextMatch)
              children locals) =
    cached locals ++ filter isCacheRoute (elementsOf children).
Proof.
  induction children as [| child rest IH]; intros locals.
  - cbn. rewrite app_nil_r. reflexivity.
  - cbn [fold_left elementsOf]. rewrite IH.
    destruct child as [e | text]; [| reflexivity].
    cbn [forEachChild elementsOf filter].
    destruct (isCacheRoute e) eqn:Hcache.
    + cbn [computedMatch cached].
      destruct (computedMatch locals); cbn [cached].
      * rewrite <- app_assoc. reflexivity.
      * destruct (childMatch matchPath location contextMatch e);
          cbn [cached]; rewrite <- app_assoc; reflexivity.
    + destruct (computedMatch locals); [reflexivity |].
      destruct (childMatch matchPath location contextMatch e); reflexivity.
Qed.

(** Once a match is found, the later children change neither the element
    nor the match. *)
Lemma forEachChild_settled (location : Location) (contextMatch : option Match)
  (children : list ReactNode) :
  forall (locals : Locals) (m : Match),
    computedMatch locals = Some m ->
    element (fold_left (forEachChild matchPath location contextMatch)
               children locals) = element locals
    /\ computedMatch (fold_left (forEachChild matchPath location contextMatch)
                        children locals) = Some m.
Proof.
  induction children as [| child rest IH]; intros locals m Hm.
  - split; [reflexivity | exact Hm].
  - cbn [fold_left].
    assert (Hstep :
              element (forEachChild matchPath location contextMatch locals child) =
                element locals
              /\ computedMatch
                   (forEachChild matchPath location contextMatch locals child) =
                 Some m).
    { destruct child as [e | text]; [| split; [reflexivity | exact Hm]].
      cbn [forEachChild].
      destruct (isCacheRoute e); cbn [computedMatch]; rewrite Hm;
        split; first [reflexivity | exact Hm]. }
    destruct Hstep as (He & Hc).
    destruct (IH _ m Hc) as (He2 & Hc2).
    split; congruence.
Qed.

Lemma forEachChild_first (location : Location) (contextMatch : option Match)
  (children : list ReactNode) :
  forall locals : Locals,
    computedMatch locals = None ->
    element locals = None ->
    let final :=
      fold_left (forEachChild matchPath location contextMatch) children locals in
    match firstMatch matchPath location contextMatch children with
    | Some e =>
        element final = (if isCacheRoute e then None else Some e)
        /\ computedMatch final = childMatch matchPath location contextMatch e
    | None => element final = None /\ computedMatch final = None
    end.
Proof.
  unfold firstMatch.
  induction children as [| child rest IH]; intros locals Hm He; cbv zeta.
  - split; assumption.
  - cbn [fold_left elementsOf].
    destruct child as [e | text]; [| apply IH; assumption].
    cbn [find].
    destruct (childMatch matchPath location contextMatch e) as [m |] eqn:Hmatch;
      cbn [isMatch].
    + assert (Hstep :
                element (forEachChild matchPath location contextMatch locals
                           (Element e)) =
                  (if isCacheRoute e then None else Some e)
                /\ computedMatch
                     (forEachChild matchPath location contextMatch locals
                        (Element e)) = Some m).
      { cbn [forEachChild].
        destruct (isCacheRoute e); cbn [computedMatch]; rewrite Hm, Hmatch;
          split; reflexivity. }
      destruct Hstep as (Hel & Hcm).
      destruct (forEachChild_settled location contextMatch rest _ m Hcm)
        as (Hel2 & Hcm2).
      split; congruence.
    + destruct locals as [el cm ca]. cbn [computedMatch element] in Hm, He.
      subst el cm.
      apply IH; cbn [forEachChild];
        destruct (isCacheRoute e); cbn [computedMatch]; rewrite Hmatch;
        reflexivity.
Qed.

(** X11: [CacheSwitch] renders every child that is a [CacheRoute], in the
    order of the children, whatever the location is and whichever child
    matches it. *)
Theorem CacheSwitch_renders_every_CacheRoute (location : Location)
  (contextMatch : option Match) (children : list ReactNode) :
  cachedRoutes (CacheSwitch matchPath location contextMatch children) =
  filter isCacheRoute (elementsOf children).
Proof.
  unfold CacheSwitch. cbn [cachedRoutes].
  rewrite forEachChild_cached. reflexivity.
Qed.

(** X12: besides the cached routes, [CacheSwitch] renders at most one
    child: the first element that the location matches, cloned with the
    location and its match, when that element is not a [CacheRoute]; and
    nothing when the first match is a [CacheRoute] or no child matches.
    Children after the first match are not tried. *)
Theorem CacheSwitch_renders_first_match (location : Location)
  (contextMatch : option Match) (children : list ReactNode) :
  matchedRoute (CacheSwitch matchPath location contextMatch children) =
  match firstMatch matchPath location contextMatch children with
  | Some e =>
      if isCacheRoute e then None
      else Some (cloneRouting location
                   (childMatch matchPath location contextMatch e) e)
  | None => None
  end.
Proof.
  unfold CacheSwitch. cbn [matchedRoute].
  pose proof (forEachChild_first location contextMatch children
                {| element := None; computedMatch := None; cached := [] |}
                eq_refl eq_refl) as Hfirst.
  cbv zeta in Hfirst.
  destruct (firstMatch matchPath location contextMatch children) as [e |].
  - destruct Hfirst as (-> & ->). destruct (isCacheRoute e); reflexivity.
  - destruct Hfirst as (-> & _). reflexivity.
Qed.

(** X13: no child is rendered twice: the element that [CacheSwitch]
    renders for the match is never a [CacheRoute], and so is none of the
    cached routes. *)
Theorem CacheSwitch_renders_no_child_twice (location : Location)
  (contextMatch : option Match) (children : list ReactNode)
  (e : ReactElement) :
  matchedRoute (CacheSwitch matchPath location contextMatch children) = Some e ->
  isCacheRoute e = false
  /\ ~ In e (cachedRoutes (CacheSwitch matchPath location contextMatch children)).
Proof.
  unfold CacheSwitch. cbn [matchedRoute cachedRoutes].
  pose proof (forEachChild_first location contextMatch children
                {| element := None; computedMatch := None; cached := [] |}
                eq_refl eq_refl) as Hfirst.
  cbv zeta in Hfirst.
  rewrite forEachChild_cached. cbn [cached app].
  destruct (firstMatch matchPath location contextMatch children) as [c |].
  - destruct Hfirst as (-> & _).
    destruct (isCacheRoute c) eqn:Hc; [discriminate |].
    intros Hsome. injection Hsome as <-.
    assert (Hclone : isCacheRoute
                       (cloneRouting location
                          (computedMatch
                             (fold_left (forEachChild matchPath location contextMatch)
                                children
                                {| element := None; computedMatch := None;
                                   cached := [] |})) c) = false)
      by exact Hc.
    split; [exact Hclone |].
    intros Hin. apply filter_In in Hin. destruct Hin as (_ & Htrue). congruence.
  - destruct Hfirst as (-> & _). discriminate.
Qed.

Lemma firstMatch_later (location : Location) (contextMatch : option Match)
  (before after : list ReactNode) (e : ReactElement) :
  firstMatch matchPath location contextMatch before = None ->
  isMatch (childMatch matchPath location contextMatch e) = true ->
  firstMatch matchPath location contextMatch (before ++ Element e :: after) =
  Some e.
Proof.
  unfold firstMatch. intros Hnone Hmatch.
  induction before as [| child rest IH].
  - cbn [app elementsOf find]. rewrite Hmatch. reflexivity.
  - destruct child as [c | text]; cbn [app elementsOf find] in *.
    + destruct (isMatch (childMatch matchPath location contextMatch c));
        [discriminate Hnone | apply IH; exact Hnone].
    + apply IH. exact Hnone.
Qed.

(** X14: a child without [path] and [from], or whose path is the empty
    string, is not tried against the location: it takes the match of the
    enclosing route. So when that match exists and no earlier child
    matched, this child is the one rendered (or, being a [CacheRoute],
    none is), whatever the location and whatever comes after it. *)
Theorem CacheSwitch_pathless_child_catches_all (location : Location)
  (m : Match) (before after : list ReactNode) (e : ReactElement) :
  match childPath e with
  | Some p => truthy p = false
  | None => True
  end ->
  firstMatch matchPath location (Some m) before = None ->
  matchedRoute
    (CacheSwitch matchPath location (Some m) (before ++ Element e :: after)) =
  if isCacheRoute e then None else Some (cloneRouting location (Some m) e).
Proof.
  intros Hpath Hnone.
  assert (Hmatch : childMatch matchPath location (Some m) e = Some m).
  { unfold childMatch. destruct (childPath e) as [p |]; [| reflexivity].
    rewrite Hpath. reflexivity. }
  unfold CacheSwitch. cbn [matchedRoute].
  pose proof (forEachChild_first location (Some m) (before ++ Element e :: after)
                {| element := None; computedMatch := None; cached := [] |}
                eq_refl eq_refl) as Hfirst.
  cbv zeta in Hfirst.
  rewrite (firstMatch_later location (Some m) before after e Hnone) in Hfirst
    by (rewrite Hmatch; reflexivity).
  destruct Hfirst as (-> & ->). rewrite Hmatch.
  destruct (isCacheRoute e); reflexivity.
Qed.

(** ** [CacheRoute] *)

Lemma useMemo_sound (matched : bool) (st : CacheRouteState) :
  memoSound concatStyleSets slideUpIn10 st ->
  let result :=
    useMemo (fun _ => stackPropsFor concatStyleSets slideUpIn10 matched)
      [matched] (memo st) in
  snd result = stackPropsFor concatStyleSets slideUpIn10 matched
  /\ forall deps value,
       fst result = Some (deps, value) ->
       exists b, deps = [b] /\ value = stackPropsFor concatStyleSets slideUpIn10 b.
Proof.
  intros Hsound. cbv zeta. unfold useMemo.
  destruct (memo st) as [[previous value] |] eqn:Hmemo.
  - destruct (Hsound previous value Hmemo) as (b & -> & ->).
    cbn [sameDeps]. rewrite andb_true_r.
    destruct (Bool.eqb b matched) eqn:Heq; cbn [fst snd].
    + apply Bool.eqb_prop in Heq. subst b. split; [reflexivity |].
      intros deps v Hsome. injection Hsome as <- <-.
      exists matched. split; reflexivity.
    + split; [reflexivity |].
      intros deps v Hsome. injection Hsome as <- <-.
      exists matched. split; reflexivity.
  - cbn [fst snd]. split; [reflexivity |].
    intros deps v Hsome. injection Hsome as <- <-.
    exists matched. split; reflexivity.
Qed.

(** What one render leaves and returns, the memo being sound. *)
Lemma CacheRoute_render (props0 : Props.t) (children : list ReactNode)
  (m : option Match) (st : CacheRouteState) :
  memoSound concatStyleSets slideUpIn10 st ->
  everMatched (fst (CacheRoute concatStyleSets slideUpIn10 props0 children m st)) =
    everMatched st || isMatch m
  /\ memoSound concatStyleSets slideUpIn10
       (fst (CacheRoute concatStyleSets slideUpIn10 props0 children m st))
  /\ snd (CacheRoute concatStyleSets slideUpIn10 props0 children m st) =
     if isMatch m || (everMatched st && negb (isTrue (Props.noCache props0)))
     then
       Some {| stackProps := stackPropsFor concatStyleSets slideUpIn10 (isMatch m);
               stackChildren :=
                 map (fun child =>
                        match child with
                        | Element e => Element (cloneVisible (isMatch m) e)
                        | Text _ => child
                        end) children |}
     else None.
Proof.
  intros Hsound.
  destruct (useMemo_sound (isMatch m) st Hsound) as (Hvalue & Hstored).
  unfold CacheRoute.
  destruct (useMemo
              (fun _ => stackPropsFor concatStyleSets slideUpIn10 (isMatch m))
              [isMatch m] (memo st)) as [stored value].
  cbn [fst snd] in Hvalue, Hstored. subst value.
  destruct (everMatched st), (isMatch m), (isTrue (Props.noCache props0));
    cbn; repeat split; try reflexivity; exact Hstored.
Qed.

Lemma afterRenders_state (history : list Render) :
  forall st : CacheRouteState,
    memoSound concatStyleSets slideUpIn10 st ->
    let final :=
      fold_left
        (fun st r =>
           fst (CacheRoute concatStyleSets slideUpIn10 (renderProps r)
                  (renderChildren r) (renderMatch r) st))
        history st in
    everMatched final =
      everMatched st || existsb (fun r => isMatch (renderMatch r)) history
    /\ memoSound concatStyleSets slideUpIn10 final.
Proof.
  induction history as [| r rest IH]; intros st Hsound; cbv zeta.
  - cbn. rewrite orb_false_r. split; [reflexivity | exact Hsound].
  - cbn [fold_left existsb].
    destruct (CacheRoute_render (renderProps r) (renderChildren r)
                (renderMatch r) st Hsound) as (Hever & Hsound' & _).
    destruct (IH _ Hsound') as (Hever2 & Hsound2).
    split; [| exact Hsound2].
    rewrite Hever2, Hever, orb_assoc. reflexivity.
Qed.

Lemma mounted_memoSound : memoSound concatStyleSets slideUpIn10 mounted.
Proof. intros deps value Hsome. discriminate Hsome. Qed.

(** X15: a mounted [CacheRoute] renders its children exactly when the
    location matches now, or matched at an earlier render and the route is
    not [noCache]; it then renders them in a [Stack] whose props are those
    computed for the current match, never stale ones of the memo (display
    flex when matched, none when not), with [visible] set on every child
    element to whether the location matches now. Otherwise it renders
    nothing. *)
Theorem CacheRoute_render_after_history (history : list Render)
  (props0 : Props.t) (children : list ReactNode) (m : option Match) :
  snd (CacheRoute concatStyleSets slideUpIn10 props0 children m
         (afterRenders concatStyleSets slideUpIn10 history)) =
  if isMatch m
     || (existsb (fun r => isMatch (renderMatch r)) history
         && negb (isTrue (Props.noCache props0)))
  then
    Some {| stackProps := stackPropsFor concatStyleSets slideUpIn10 (isMatch m);
            stackChildren :=
              map (fun child =>
                     match child with
                     | Element e => Element (cloneVisible (isMatch m) e)
                     | Text _ => child
                     end) children |}
  else None.
Proof.
  unfold afterRenders.
  destruct (afterRenders_state history mounted mounted_memoSound)
    as (Hever & Hsound).
  destruct (CacheRoute_render props0 children m _ Hsound) as (_ & _ & Hout).
  rewrite Hout, Hever. reflexivity.
Qed.

(** X16: a [CacheRoute] that the location matched once stays in the tree:
    at every later render without [noCache] it renders its children, shown
    when the location matches and hidden (display none, [visible] false)
    when it does not. *)
Theorem CacheRoute_stays_after_first_match (before after : list Render)
  (visit : Render) (props0 : Props.t) (children : list ReactNode)
  (m : option Match) :
  isMatch (renderMatch visit) = true ->
  isTrue (Props.noCache props0) = false ->
  exists stack : Stack,
    snd (CacheRoute concatStyleSets slideUpIn10 props0 children m
           (afterRenders concatStyleSets slideUpIn10 (before ++ visit :: after))) =
      Some stack
    /\ styles (stackProps stack) =
       Some (concatStyleSets (Some [("root", [("overflow", "auto")])])
               [("root", [("display", if isMatch m then "flex" else "none")])])
    /\ forall e : ReactElement,
         In (Element e) (stackChildren stack) ->
         Props.visible (props e) = Some (isMatch m).
Proof.
  intros Hvisit Hcache.
  unfold afterRenders.
  destruct (afterRenders_state (before ++ visit :: after) mounted
              mounted_memoSound) as (Hever & Hsound).
  destruct (CacheRoute_render props0 children m _ Hsound) as (_ & _ & Hout).
  rewrite Hever in Hout. cbn [mounted everMatched orb] in Hout.
  rewrite existsb_app in Hout. cbn [existsb] in Hout.
  rewrite Hvisit, Hcache in Hout. cbn [orb negb andb] in Hout.
  rewrite orb_true_r in Hout. cbn [andb] in Hout. rewrite orb_true_r in Hout.
  eexists. split; [exact Hout |].
  cbn [stackProps stackChildren]. split; [reflexivity |].
  intros e Hin. apply in_map_iff in Hin.
  destruct Hin as (child & Hchild & _).
  destruct child as [e0 | text]; [| discriminate Hchild].
  injection Hchild as <-. reflexivity.
Qed.

End RouterProperties.

(** * The routing components on sample routes *)

Lemma CacheSwitch_renders_no_child_twice_witness :
  let fragment :=
    Router.CacheSwitch Router.sampleMatchPath (Router.sampleLocation "/") None
      [Router.Element Router.shellRoute; Router.Text "x";
       Router.Element Router.homeRoute] in
  Router.matchedRoute fragment =
    Some (Router.cloneRouting (Router.sampleLocation "/")
            (Some Router.homeMatch) Router.homeRoute)
  /\ Router.cachedRoutes fragment = [Router.shellRoute]
  /\ Router.isCacheRoute
       (Router.cloneRouting (Router.sampleLocation "/")
          (Some Router.homeMatch) Router.homeRoute) = false.
Proof.
  cbv zeta. split; [reflexivity | split; [reflexivity |]].
  exact (proj1 (CacheSwitch_renders_no_child_twice Router.sampleMatchPath
                  (Router.sampleLocation "/") None
                  [Router.Element Router.shellRoute; Router.Text "x";
                   Router.Element Router.homeRoute] _ eq_refl)).
Defined.

Lemma CacheRoute_stays_after_first_match_witness :
  let visit :=
    {| Router.renderProps := Router.sampleProps (Some "/shell");
       Router.renderChildren := [];
       Router.renderMatch := Some Router.homeMatch |} in
  Router.isMatch (Router.renderMatch visit) = true
  /\ Router.isTrue (Router.Props.noCache (Router.sampleProps (Some "/shell"))) =
     false
  /\ exists stack : Router.Stack,
      snd (Router.CacheRoute Router.sampleConcat "slideUpIn10"
             (Router.sampleProps (Some "/shell"))
             [Router.Element Router.homeRoute] None
             (Router.afterRenders Router.sampleConcat "slideUpIn10"
                ([] ++ visit :: []))) = Some stack
      /\ Router.styles (Router.stackProps stack) =
         Some [("root", [("overflow", "auto")]); ("root", [("display", "none")])]
      /\ forall e : Router.ReactElement,
           In (Router.Element e) (Router.stackChildren stack) ->
           Router.Props.visible (Router.props e) = Some false.
Proof.
  cbv zeta. split; [reflexivity | split; [reflexivity |]].
  exact (CacheRoute_stays_after_first_match Router.sampleConcat "slideUpIn10"
           [] []
           {| Router.renderProps := Router.sampleProps (Some "/shell");
              Router.renderChildren := [];
              Router.renderMatch := Some Router.homeMatch |}
           (Router.sampleProps (Some "/shell"))
           [Router.Element Router.homeRoute] None eq_refl eq_refl).
Defined.

Lemma CacheSwitch_pathless_child_catches_all_witness :
  let fallback :=
    {| Router.type := Router.OtherType "Route";
       Router.props := Router.sampleProps None |} in
  Router.firstMatch Router.sampleMatchPath (Router.sampleLocation "/nowhere")
    (Some Router.homeMatch) [Router.Element Router.homeRoute] = None
  /\ Router.matchedRoute
       (Router.CacheSwitch Router.sampleMatchPath
          (Router.sampleLocation "/nowhere") (Some Router.homeMatch)
          ([Router.Element Router.homeRoute]
           ++ Router.Element fallback :: [Router.Element Router.shellRoute])) =
     Some (Router.cloneRouting (Router.sampleLocation "/nowhere")
             (Some Router.homeMatch) fallback).
Proof.
  cbv zeta. split; [reflexivity |].
  exact (CacheSwitch_pathless_child_catches_all Router.sampleMatchPath
           (Router.sampleLocation "/nowhere") Router.homeMatch
           [Router.Element Router.homeRoute] [Router.Element Router.shellRoute]
           {| Router.type := Router.OtherType "Route";
              Router.props := Router.sampleProps None |} I eq_refl).
Defined.
